(** * squabble: the command-line entry point ([squabble/__main__.py])

    A shallow embedding of [main], [lint_file], [collect_files],
    [show_rule], [list_rules] and [list_presets], and the properties of
    the run they drive: which collaborators are called, in which order,
    on which arguments, and how the process exits.

    The modules [squabble.config], [squabble.rule], [squabble.lint] and
    [squabble.reporter], as well as [os.path], [glob], [json] and the
    logger, are collaborators of this file.  They are gathered in the
    interface [Env]; every definition below is parametric in it. *)

From Stdlib Require Import String Ascii List ZArith Lia Bool.
From Stdlib Require Import Sorting.Sorted Sorting.Permutation.
From stdpp Require Import gmap strings.
Import ListNotations.

Local Open Scope Z_scope.
Local Open Scope string_scope.
Local Open Scope list_scope.

(** ** Python values used by the entry point *)

(** Exceptions that travel through [main].  Only
    [squabble.UnknownRuleException] is ever caught (in [show_rule]). *)
Inductive Exn : Type :=
| UnknownRuleException (name : string)
| KeyError (key : string)
| OtherException (what : string).

(** The argument of [sys.exit]: an integer status or a message. *)
Inductive ExitArg : Type :=
| ExitCode (n : Z)
| ExitMsg (msg : string).

(** How a Python computation ends: it returns a value, it raises
    [SystemExit] through [sys.exit], or it raises another exception that
    nobody catches. *)
Inductive Outcome (A : Type) : Type :=
| Returned (a : A)
| SystemExit (arg : ExitArg)
| Uncaught (e : Exn).

Arguments Returned {A} a.
Arguments SystemExit {A} arg.
Arguments Uncaught {A} e.

(** The status of the process when [main()] ends this way: a normal
    return gives 0, [sys.exit(n)] gives [n] (its low byte),
    [sys.exit(message)] prints the message and gives 1, and an uncaught
    exception prints a traceback and gives 1. *)
Definition exit_status {A} (o : Outcome A) : Z :=
  match o with
  | Returned _ => 0
  | SystemExit (ExitCode n) => Z.land n 255
  | SystemExit (ExitMsg _) => 1
  | Uncaught _ => 1
  end.

(** Truth value of an optional string ([None] and [''] are false). *)
Definition truthy (o : option string) : bool :=
  match o with
  | Some s => negb (String.eqb s "")
  | None => false
  end.

(** The value of a truthy optional string. *)
Definition str_of (o : option string) : string :=
  match o with Some s => s | None => "" end.

(** The dictionary [docopt.docopt(__doc__, version=version)] returns. *)
Record Args : Type := {
  arg_verbose : bool;               (* args['--verbose'] *)
  arg_PATHS : list string;          (* args['PATHS'] *)
  arg_preset : option string;       (* args['--preset'] *)
  arg_list_presets : bool;          (* args['--list-presets'] *)
  arg_config : option string;       (* args['--config'] *)
  arg_list_rules : bool;            (* args['--list-rules'] *)
  arg_show_rule : option string     (* args['--show-rule'] *)
}.

(** The metadata dictionary of a rule; [show_rule] and [list_rules]
    format its keys [name], [description] and [help]. *)
Record Meta : Type := {
  meta_name : string;
  meta_description : string;
  meta_help : string
}.

(** One value of the table [config.PRESETS]: a dictionary read with
    [preset.get('description', '')] and [preset['config']]. *)
Record Preset (C : Type) : Type := {
  preset_description : option string;
  preset_config : option C
}.

Arguments preset_description {C} p.
Arguments preset_config {C} p.

(** A call into a collaborator: it raises, or it returns a value and
    the world it leaves behind. *)
Definition Call (W A : Type) : Type := W -> Exn + (A * W).

(** ** The collaborators *)

Class Env : Type := {
  (** everything outside the interpreter's local variables: the file
      system, the environment, the logger, the rule registry and the
      heap of configuration objects *)
  World : Type;
  (** a configuration object (a reference) and what it holds *)
  Config : Type;
  ConfigVal : Type;
  Plugins : Type;
  Reporter : Type;
  Issue : Type;
  PresetConfig : Type;
  (** [os.path.expanduser], [os.path.exists], [os.path.isdir] *)
  expanduser : World -> string -> string;
  path_exists : World -> string -> bool;
  path_isdir : World -> string -> bool;
  (** [glob.iglob(pattern, recursive=...)], read to its end *)
  iglob : World -> string -> bool -> list string;
  (** [json.dumps(value, indent=4)] *)
  json_dumps : PresetConfig -> string;
  (** [logger.setLevel] *)
  setLevel : string -> World -> World;
  (** [config.PRESETS.items()] *)
  PRESETS : list (string * Preset PresetConfig);
  (** [config.discover_config_location], [config.load_config],
      [config.apply_file_config] *)
  discover_config_location : Call World (option string);
  load_config : option string -> option string -> Call World Config;
  apply_file_config : Config -> string -> Call World Config;
  (** reading a configuration object, and its attributes [plugins] and
      [reporter] *)
  cfg_read : World -> Config -> ConfigVal;
  cfg_plugins : ConfigVal -> Plugins;
  cfg_reporter : ConfigVal -> Reporter;
  (** [rule.load_rules] and the content of [rule.Registry] *)
  load_rules : Plugins -> Call World unit;
  registry : World -> gmap string Meta;
  (** [lint.check_file] *)
  check_file : Config -> string -> Call World (list Issue);
  (** [reporter.report] *)
  report : Reporter -> list Issue -> Call World unit
}.

(** ** What a run does, as a sequence of events *)

Inductive Event {E : Env} : Type :=
| EvSetLevel (level : string)
| EvPrint (text : string)
| EvDiscoverConfig
| EvConfigExists (config_file : string)
| EvLoadConfig (config_file preset : option string)
| EvLoadRules (plugin_paths : Plugins)
| EvRegistryAll
| EvGetMeta (name : string)
| EvCollectPath (path : string)
| EvGlob (pattern : string)
| EvApplyFileConfig (base : Config) (base_value : ConfigVal) (file_name : string)
| EvCheckFile (file_config : Config) (file_name : string)
| EvReport (reporter : Reporter) (issues : list Issue).

(** ** The monad of the entry point

    A computation starts in a world and ends with an outcome, the world
    it reached and the events it went through. *)
Definition M {E : Env} (A : Type) : Type := World -> Outcome A * World * list Event.

Section Monad.
Context {E : Env}.

Definition ret {A} (a : A) : M A := fun w => (Returned a, w, []).

Definition bind {A B} (m : M A) (k : A -> M B) : M B :=
  fun w =>
    match m w with
    | (Returned a, w1, t1) =>
        match k a w1 with
        | (o, w2, t2) => (o, w2, t1 ++ t2)
        end
    | (SystemExit x, w1, t1) => (SystemExit x, w1, t1)
    | (Uncaught e, w1, t1) => (Uncaught e, w1, t1)
    end.

(** [sys.exit(arg)] *)
Definition sys_exit {A} (arg : ExitArg) : M A := fun w => (SystemExit arg, w, []).

(** [raise e] *)
Definition raise {A} (e : Exn) : M A := fun w => (Uncaught e, w, []).

(** a call into a collaborator, recorded as [ev] *)
Definition call {A} (ev : Event) (c : Call World A) : M A :=
  fun w =>
    match c w with
    | inl e => (Uncaught e, w, [ev])
    | inr (a, w') => (Returned a, w', [ev])
    end.

(** a query that reads the world, recorded as [ev] *)
Definition query {A} (ev : Event) (q : World -> A) : M A :=
  fun w => (Returned (q w), w, [ev]).

(** a read that leaves no event (an attribute of an object, a pure
    function of the environment) *)
Definition peek {A} (q : World -> A) : M A :=
  fun w => (Returned (q w), w, []).

(** [print(text)] *)
Definition print (text : string) : M unit :=
  fun w => (Returned tt, w, [EvPrint text]).

(** [try: m  except squabble.UnknownRuleException: h] *)
Definition except_UnknownRule {A} (m : M A) (h : M A) : M A :=
  fun w =>
    match m w with
    | (Uncaught (UnknownRuleException _), w1, t1) =>
        match h w1 with
        | (o, w2, t2) => (o, w2, t1 ++ t2)
        end
    | r => r
    end.

End Monad.

Notation "x <- m ;; k" := (bind m (fun x => k))
  (at level 100, m at next level, right associativity).
Notation "m ;;; k" := (bind m (fun _ => k))
  (at level 100, right associativity).

(** The three components of a finished run. *)
Definition outcome_of {E : Env} {A} (r : Outcome A * World * list Event) : Outcome A := fst (fst r).
Definition world_of {E : Env} {A} (r : Outcome A * World * list Event) : World := snd (fst r).
Definition trace_of {E : Env} {A} (r : Outcome A * World * list Event) : list Event := snd r.

(** ** Strings *)

(** [colorama.Style.BRIGHT] and [colorama.Style.RESET_ALL] *)
Definition ESC : ascii := ascii_of_nat 27.
Definition BRIGHT : string := String ESC "[1m".
Definition RESET_ALL : string := String ESC "[0m".

Definition LF : ascii := ascii_of_nat 10.

(** [s.replace('\n', '\n' + pad)] *)
Fixpoint replace_newlines (pad s : string) : string :=
  match s with
  | EmptyString => EmptyString
  | String c rest =>
      if Ascii.eqb c LF
      then String LF (pad +:+ replace_newlines pad rest)
      else String c (replace_newlines pad rest)
  end.

Fixpoint spaces (n : nat) : string :=
  match n with
  | O => EmptyString
  | S k => String " " (spaces k)
  end.

(** A Python string is a sequence of code points; here it is the
    sequence of its UTF-8 bytes.  A byte [10xxxxxx] continues a code
    point, any other byte starts one. *)
Definition is_continuation (c : ascii) : bool :=
  (128 <=? nat_of_ascii c)%nat && (nat_of_ascii c <? 192)%nat.

(** [len(s)] *)
Fixpoint code_points (s : string) : nat :=
  match s with
  | EmptyString => O
  | String c rest =>
      if is_continuation c then code_points rest else S (code_points rest)
  end.

(** the format field [{name: <32}]: left aligned, filled with spaces
    up to 32 characters *)
Definition ljust32 (s : string) : string :=
  s +:+ spaces (32 - code_points s).

Fixpoint endswith_sep (s : string) : bool :=
  match s with
  | EmptyString => false
  | String c EmptyString => Ascii.eqb c "/"
  | String _ rest => endswith_sep rest
  end.

Definition startswith_sep (s : string) : bool :=
  match s with
  | String c _ => Ascii.eqb c "/"
  | EmptyString => false
  end.

(** [os.path.join(a, b)] of [posixpath] *)
Definition path_join (a b : string) : string :=
  if startswith_sep b then b
  else if orb (String.eqb a "") (endswith_sep a) then a +:+ b
  else a +:+ "/" +:+ b.

(** [sorted(metas, key=lambda r: r['name'])]: a stable sort on the
    names, compared as Python compares strings *)
Fixpoint insert_by_name (m : Meta) (l : list Meta) : list Meta :=
  match l with
  | [] => [m]
  | x :: rest =>
      if String.ltb (meta_name m) (meta_name x)
      then m :: x :: rest
      else x :: insert_by_name m rest
  end.

Definition sorted_by_name (l : list Meta) : list Meta :=
  fold_left (fun acc m => insert_by_name m acc) l [].

Definition nonempty {A} (l : list A) : bool :=
  match l with [] => false | _ :: _ => true end.

(** ** The entry point *)

Section Program.
Context {E : Env}.

(** Modelled from the spec: [rule.Registry.get_meta] is not part of the
    sources at hand.  Section 4.1: "get(name): returns the descriptor or
    fails with UnknownRuleError"; the registry is "the single source of
    truth mapping rule name -> descriptor". *)
Definition get_meta (name : string) : M Meta :=
  fun w =>
    match registry w !! name with
    | Some meta => (Returned meta, w, [EvGetMeta name])
    | None => (Uncaught (UnknownRuleException name), w, [EvGetMeta name])
    end.

(** Modelled from the spec: [rule.Registry.all] is not part of the
    sources at hand.  Section 4.1: "all(): produces a lazy,
    order-irrelevant sequence of all descriptors". *)
Definition registry_all : M (list Meta) :=
  query EvRegistryAll (fun w => (map_to_list (registry w)).*2).

(** [lint_file(base_config, file_name)] *)
Definition lint_file (base_config : Config) (file_name : string) : M (list Issue) :=
  file_config <-
    (fun w => call (EvApplyFileConfig base_config (cfg_read w base_config) file_name)
                   (apply_file_config base_config file_name) w) ;;
  call (EvCheckFile file_config file_name) (check_file file_config file_name).

(** The loop of [collect_files]: [paths] is what is left of the
    argument, [files] the list built so far. *)
Fixpoint collect_files_loop (paths files : list string) : M (list string) :=
  match paths with
  | [] => ret files
  | p :: rest =>
      path <- peek (fun w => expanduser w p) ;;
      found <- query (EvCollectPath path) (fun w => path_exists w path) ;;
      if negb found
      then sys_exit (ExitMsg (path +:+ ": no such file or directory"))
      else
        isdir <- peek (fun w => path_isdir w path) ;;
        if isdir
        then
          let sql := path_join path "**/*.sql" in
          matches <- query (EvGlob sql) (fun w => iglob w sql true) ;;
          collect_files_loop rest (files ++ matches)
        else collect_files_loop rest (files ++ [path])
  end.

(** [collect_files(paths)] *)
Definition collect_files (paths : list string) : M (list string) :=
  collect_files_loop paths [].

(** [show_rule(name)] *)
Definition show_rule (name : string) : M unit :=
  meta <-
    except_UnknownRule (get_meta name)
      (sys_exit (ExitMsg (BRIGHT +:+ "Unknown rule:" +:+ RESET_ALL +:+ " " +:+ name))) ;;
  print (BRIGHT +:+ meta_name meta +:+ RESET_ALL +:+ " - " +:+ meta_description meta
         +:+ String LF (meta_help meta)).

Fixpoint list_rules_loop (all_rules : list Meta) : M unit :=
  match all_rules with
  | [] => ret tt
  | meta :: rest =>
      print (BRIGHT +:+ ljust32 (meta_name meta) +:+ RESET_ALL +:+ " "
             +:+ meta_description meta) ;;;
      list_rules_loop rest
  end.

(** [list_rules()] *)
Definition list_rules : M unit :=
  metas <- registry_all ;;
  list_rules_loop (sorted_by_name metas).

Definition left_pad : string := "    ".

Fixpoint list_presets_loop (items : list (string * Preset PresetConfig)) : M unit :=
  match items with
  | [] => ret tt
  | (name, preset) :: rest =>
      print (BRIGHT +:+ name +:+ RESET_ALL +:+ " - "
             +:+ default "" (preset_description preset)) ;;;
      match preset_config preset with
      | None => raise (KeyError "config")
      | Some c =>
          let cfg := replace_newlines left_pad (json_dumps c) in
          print (left_pad +:+ cfg) ;;;
          list_presets_loop rest
      end
  end.

(** [list_presets()] *)
Definition list_presets : M unit := list_presets_loop PRESETS.

(** The loop of [main] over the collected files: [issues] is the list
    built so far ([issues += lint_file(base_config, file_name)]). *)
Fixpoint lint_loop (base_config : Config) (files : list string) (issues : list Issue)
  : M (list Issue) :=
  match files with
  | [] => ret issues
  | file_name :: rest =>
      found <- lint_file base_config file_name ;;
      lint_loop base_config rest (issues ++ found)
  end.

(** [main()], from the dictionary of arguments that [docopt] returned. *)
Definition main (args : Args) : M unit :=
  (if arg_verbose args
   then (fun w => (Returned tt, setLevel "DEBUG" w, [EvSetLevel "DEBUG"]))
   else ret tt) ;;;
  let paths := arg_PATHS args in
  let preset := arg_preset args in
  if arg_list_presets args then list_presets
  else
    config_file <-
      (if truthy (arg_config args) then ret (arg_config args)
       else call EvDiscoverConfig discover_config_location) ;;
    missing <-
      (if truthy config_file
       then found <- query (EvConfigExists (str_of config_file))
                           (fun w => path_exists w (str_of config_file)) ;;
            ret (negb found)
       else ret false) ;;
    if (missing : bool)
    then sys_exit (ExitMsg (str_of config_file +:+ ": no such file or directory"))
    else
      base_config <- call (EvLoadConfig config_file preset) (load_config config_file preset) ;;
      plugins <- peek (fun w => cfg_plugins (cfg_read w base_config)) ;;
      call (EvLoadRules plugins) (load_rules plugins) ;;;
      if arg_list_rules args then list_rules
      else if truthy (arg_show_rule args) then show_rule (str_of (arg_show_rule args))
      else
        files <- collect_files paths ;;
        issues <- lint_loop base_config files [] ;;
        rep <- peek (fun w => cfg_reporter (cfg_read w base_config)) ;;
        call (EvReport rep issues) (report rep issues) ;;;
        if nonempty issues then sys_exit (ExitCode 1) else ret tt.

End Program.

(** ** A concrete environment

    A small world on which runs can be evaluated: a home directory, a
    handful of files and directories with the answers of [glob], a heap
    of configuration objects addressed by their index, a registry that
    [load_rules] fills, and the findings of the linter per file. *)

Module Demo.

Record cfgval : Type := {
  cv_reporter : string;
  cv_plugins : list string;
  cv_rules : list string
}.

Record issue : Type := {
  issue_rule : string;
  issue_file : string;
  issue_message : string
}.

Record world : Type := {
  home : string;
  files : list string;
  dirs : list string;
  globs : list (string * list string);
  discovered : option string;
  heap : list cfgval;
  rules : gmap string Meta;
  level : string;
  findings : list (string * list issue)
}.

Definition with_heap (h : list cfgval) (w : world) : world :=
  {| home := home w; files := files w; dirs := dirs w; globs := globs w;
     discovered := discovered w; heap := h; rules := rules w;
     level := level w; findings := findings w |}.

Definition with_rules (r : gmap string Meta) (w : world) : world :=
  {| home := home w; files := files w; dirs := dirs w; globs := globs w;
     discovered := discovered w; heap := heap w; rules := r;
     level := level w; findings := findings w |}.

Definition with_level (l : string) (w : world) : world :=
  {| home := home w; files := files w; dirs := dirs w; globs := globs w;
     discovered := discovered w; heap := heap w; rules := rules w;
     level := l; findings := findings w |}.

Fixpoint assoc {A} (k : string) (l : list (string * A)) : option A :=
  match l with
  | [] => None
  | (k', v) :: rest => if String.eqb k k' then Some v else assoc k rest
  end.

Definition mem (k : string) (l : list string) : bool :=
  existsb (String.eqb k) l.

(** [~] and [~/rest] are replaced by the home directory; any other path
    is returned unchanged. *)
Definition expand (w : world) (p : string) : string :=
  match p with
  | String c rest =>
      if Ascii.eqb c "~"
      then match rest with
           | EmptyString => home w
           | String d _ => if Ascii.eqb d "/" then home w +:+ rest else p
           end
      else p
  | EmptyString => p
  end.

Definition exists_ (w : world) (p : string) : bool :=
  orb (mem p (files w)) (mem p (dirs w)).

Definition isdir (w : world) (p : string) : bool := mem p (dirs w).

Definition glob (w : world) (pattern : string) (recursive : bool) : list string :=
  default [] (assoc pattern (globs w)).

Definition dumps (names : list string) : string :=
  "[" +:+ String.concat ", " names +:+ "]".

Definition default_config : cfgval :=
  {| cv_reporter := "plain"; cv_plugins := []; cv_rules := [] |}.

Definition presets : list (string * Preset (list string)) :=
  [ ("postgres",
     {| preset_description := Some "A sane set of defaults";
        preset_config := Some ["RequirePrimaryKey"; "DisallowChangeColumnType"] |});
    ("full",
     {| preset_description := None;
        preset_config := Some ["RequirePrimaryKey"] |}) ].

(** the preset must be a known one; the configuration file, when there
    is one, selects the [color] reporter *)
Definition load (config_file preset : option string) : Call world nat :=
  fun w =>
    let enabled :=
      match preset with
      | None => Some (Some [])
      | Some p => option_map preset_config (assoc p presets)
      end in
    match enabled with
    | Some (Some names) =>
        let v := {| cv_reporter := if truthy config_file then "color" else "plain";
                    cv_plugins := [];
                    cv_rules := names |} in
        inr (length (heap w), with_heap (heap w ++ [v]) w)
    | _ => inl (OtherException "unknown preset")
    end.

Definition read (w : world) (c : nat) : cfgval := nth c (heap w) default_config.

(** a derived object is a fresh copy of the base *)
Definition apply_file (base : nat) (file_name : string) : Call world nat :=
  fun w =>
    match nth_error (heap w) base with
    | Some v => inr (length (heap w), with_heap (heap w ++ [v]) w)
    | None => inl (OtherException "no such configuration")
    end.

Definition builtins : gmap string Meta :=
  {[ "RequirePrimaryKey" :=
       {| meta_name := "RequirePrimaryKey";
          meta_description := "Require a primary key on every table";
          meta_help := "Tables without a primary key are hard to replicate." |} ]}.

Definition load_plugins (plugin_paths : list string) : Call world unit :=
  fun w => inr (tt, with_rules builtins w).

Definition check (file_config : nat) (file_name : string) : Call world (list issue) :=
  fun w => inr (default [] (assoc file_name (findings w)), w).

Definition report_issues (reporter : string) (issues : list issue) : Call world unit :=
  fun w => inr (tt, w).

Definition env : Env :=
  {| World := world;
     Config := nat;
     ConfigVal := cfgval;
     Plugins := list string;
     Reporter := string;
     Issue := issue;
     PresetConfig := list string;
     expanduser := expand;
     path_exists := exists_;
     path_isdir := isdir;
     iglob := glob;
     json_dumps := dumps;
     setLevel := with_level;
     PRESETS := presets;
     discover_config_location := fun w => inr (discovered w, w);
     load_config := load;
     apply_file_config := apply_file;
     cfg_read := read;
     cfg_plugins := cv_plugins;
     cfg_reporter := cv_reporter;
     load_rules := load_plugins;
     registry := rules;
     check_file := check;
     report := report_issues |}.

Definition select_star : issue :=
  {| issue_rule := "DisallowSelectStar";
     issue_file := "/home/u/a.sql";
     issue_message := "SELECT * is not allowed" |}.

Definition no_pk : issue :=
  {| issue_rule := "RequirePrimaryKey";
     issue_file := "db/t.sql";
     issue_message := "table has no primary key" |}.

(** home [/home/u]; files [/home/u/a.sql], [clean.sql], [db/t.sql];
    directory [db]; no configuration file anywhere *)
Definition w0 : world :=
  {| home := "/home/u";
     files := ["/home/u/a.sql"; "clean.sql"; "db/t.sql"];
     dirs := ["db"];
     globs := [("db/**/*.sql", ["db/t.sql"])];
     discovered := None;
     heap := [];
     rules := ∅;
     level := "WARNING";
     findings := [("/home/u/a.sql", [select_star]); ("db/t.sql", [no_pk])] |}.


(** [w0] once the default configuration and the built-in rules are
    loaded *)
Definition w1 : world := with_rules builtins (with_heap [default_config] w0).

Definition args_of (paths : list string) : Args :=
  {| arg_verbose := false;
     arg_PATHS := paths;
     arg_preset := None;
     arg_list_presets := false;
     arg_config := None;
     arg_list_rules := false;
     arg_show_rule := None |}.

(** [squabble --list-presets --config nowhere.json gone.sql] *)
Definition args_list_presets : Args :=
  {| arg_verbose := false;
     arg_PATHS := ["gone.sql"];
     arg_preset := None;
     arg_list_presets := true;
     arg_config := Some "nowhere.json";
     arg_list_rules := false;
     arg_show_rule := None |}.

(** [squabble --config nowhere.json clean.sql] *)
Definition args_missing_config : Args :=
  {| arg_verbose := false;
     arg_PATHS := ["clean.sql"];
     arg_preset := None;
     arg_list_presets := false;
     arg_config := Some "nowhere.json";
     arg_list_rules := false;
     arg_show_rule := None |}.

(** [squabble --show-rule NoSuchRule] *)
Definition args_show_rule : Args :=
  {| arg_verbose := false;
     arg_PATHS := [];
     arg_preset := None;
     arg_list_presets := false;
     arg_config := None;
     arg_list_rules := false;
     arg_show_rule := Some "NoSuchRule" |}.

End Demo.

(** ** Vocabulary of the properties *)

Section Vocabulary.
Context {E : Env}.

(** Events of the start of a run, before any configuration is loaded. *)
Definition is_setup_event (e : Event) : bool :=
  match e with
  | EvSetLevel _ | EvPrint _ | EvDiscoverConfig | EvConfigExists _ => true
  | _ => false
  end.

(** [config.load_config] is called: the base configuration is resolved. *)
Definition is_load_config (e : Event) : bool :=
  match e with EvLoadConfig _ _ => true | _ => false end.

(** [rule.load_rules] is called: the registry is populated. *)
Definition is_load_rules (e : Event) : bool :=
  match e with EvLoadRules _ => true | _ => false end.

(** Events of [collect_files]. *)
Definition is_collect_event (e : Event) : bool :=
  match e with EvCollectPath _ | EvGlob _ => true | _ => false end.

(** Events of [lint_file]: a file is being linted. *)
Definition is_lint_event (e : Event) : bool :=
  match e with EvApplyFileConfig _ _ _ | EvCheckFile _ _ => true | _ => false end.

(** Per-file processing: collection and linting. *)
Definition is_file_event (e : Event) : bool :=
  is_collect_event e || is_lint_event e.

(** Events of [list_rules] and [show_rule]. *)
Definition is_introspection_event (e : Event) : bool :=
  match e with EvPrint _ | EvRegistryAll | EvGetMeta _ => true | _ => false end.

Definition is_report_event (e : Event) : bool :=
  match e with EvReport _ _ => true | _ => false end.

(** Everything that can follow the loading of the rules. *)
Definition is_work_event (e : Event) : bool :=
  is_introspection_event e || is_file_event e || is_report_event e.

(** How many events of a trace satisfy [p]. *)
Definition count_events (p : Event -> bool) (t : list Event) : nat :=
  length (List.filter p t).

(** What one argument of [collect_files] adds to the collected list, in
    a world where its expansion exists: the matches of the recursive
    pattern for a directory, the expanded path itself otherwise. *)
Definition collected_for (w : World) (p : string) : list string :=
  let path := expanduser w p in
  if path_isdir w path
  then iglob w (path_join path "**/*.sql") true
  else [path].

(** The events of that step. *)
Definition collect_events (w : World) (p : string) : list Event :=
  let path := expanduser w p in
  EvCollectPath path ::
  (if path_isdir w path then [EvGlob (path_join path "**/*.sql")] else []).

(** [lint_file] is run on each file in turn, every call starting in the
    world the previous one left; [found] holds what each call returned. *)
Inductive lint_each (base_config : Config)
  : list string -> World -> list (list Issue) -> World -> Prop :=
| lint_each_nil w :
    lint_each base_config [] w [] w
| lint_each_cons file_name rest w found w1 t founds w2 :
    lint_file base_config file_name w = (Returned found, w1, t) ->
    lint_each base_config rest w1 founds w2 ->
    lint_each base_config (file_name :: rest) w (found :: founds) w2.

(** The end of [main], from [files = collect_files(paths)] on. *)
Definition lint_phase (base_config : Config) (paths : list string) : M unit :=
  files <- collect_files paths ;;
  issues <- lint_loop base_config files [] ;;
  rep <- peek (fun w => cfg_reporter (cfg_read w base_config)) ;;
  call (EvReport rep issues) (report rep issues) ;;;
  if nonempty issues then sys_exit (ExitCode 1) else ret tt.

(** The world and the events once [--verbose] has been looked at. *)
Definition verbose_world (args : Args) (w : World) : World :=
  if arg_verbose args then setLevel "DEBUG" w else w.

Definition verbose_events (args : Args) : list Event :=
  if arg_verbose args then [EvSetLevel "DEBUG"] else [].

(** Every preset of the table has a [config] key. *)
Definition presets_have_config : Prop :=
  Forall (fun item => preset_config (snd item) <> None) PRESETS.

(** What [list_presets] prints for one preset. *)
Definition preset_lines (item : string * Preset PresetConfig) : list string :=
  [ BRIGHT +:+ fst item +:+ RESET_ALL +:+ " - " +:+ default "" (preset_description (snd item));
    left_pad +:+ replace_newlines left_pad
                   (match preset_config (snd item) with
                    | Some c => json_dumps c
                    | None => ""
                    end) ].



(** A computation all of whose events satisfy [P]. *)
Definition emits {A} (P : Event -> Prop) (m : M A) : Prop :=
  forall w, Forall P (trace_of (m w)).


(** The events between [--verbose] and the loading of the configuration. *)
Definition config_events (args : Args) (config_file : option string) : list Event :=
  (if truthy (arg_config args) then [] else [EvDiscoverConfig]) ++
  (if truthy config_file then [EvConfigExists (str_of config_file)] else []).

(** What [main] runs once the rules are loaded. *)
Definition command (args : Args) (base : Config) : M unit :=
  if arg_list_rules args then list_rules
  else if truthy (arg_show_rule args) then show_rule (str_of (arg_show_rule args))
  else lint_phase base (arg_PATHS args).

(** Some event satisfying [p] comes, in the trace, before some event
    satisfying [q]. *)
Fixpoint happens_before (p q : Event -> bool) (t : list Event) : bool :=
  match t with
  | [] => false
  | e :: rest => (p e && existsb q rest) || happens_before p q rest
  end.

End Vocabulary.

(** ** Vocabulary of the further properties *)

(** The rules are ordered by their names, as Python orders strings. *)
Definition name_le (m1 m2 : Meta) : Prop :=
  String.leb (meta_name m1) (meta_name m2) = true.

(** The rules of a list that bear a given name, in the order of the list. *)
Definition named (n : string) (l : list Meta) : list Meta :=
  List.filter (fun m => String.eqb (meta_name m) n) l.

(** What [list_rules] prints for one rule. *)
Definition rule_line (meta : Meta) : string :=
  BRIGHT +:+ ljust32 (meta_name meta) +:+ RESET_ALL +:+ " " +:+ meta_description meta.

(** What [show_rule] prints for a rule. *)
Definition rule_text (meta : Meta) : string :=
  BRIGHT +:+ meta_name meta +:+ RESET_ALL +:+ " - " +:+ meta_description meta
  +:+ String LF (meta_help meta).

(** [s.split('\n')]: the lines of a text. *)
Fixpoint lines_of (s : string) : list string :=
  match s with
  | EmptyString => [EmptyString]
  | String c rest =>
      if Ascii.eqb c LF then EmptyString :: lines_of rest
      else match lines_of rest with
           | l :: ls => String c l :: ls
           | [] => [String c EmptyString]
           end
  end.

(** The dictionary of arguments with one entry changed. *)
Definition with_verbose (b : bool) (args : Args) : Args :=
  {| arg_verbose := b;
     arg_PATHS := arg_PATHS args;
     arg_preset := arg_preset args;
     arg_list_presets := arg_list_presets args;
     arg_config := arg_config args;
     arg_list_rules := arg_list_rules args;
     arg_show_rule := arg_show_rule args |}.

Definition with_config (c : option string) (args : Args) : Args :=
  {| arg_verbose := arg_verbose args;
     arg_PATHS := arg_PATHS args;
     arg_preset := arg_preset args;
     arg_list_presets := arg_list_presets args;
     arg_config := c;
     arg_list_rules := arg_list_rules args;
     arg_show_rule := arg_show_rule args |}.

Definition with_show_rule (r : option string) (args : Args) : Args :=
  {| arg_verbose := arg_verbose args;
     arg_PATHS := arg_PATHS args;
     arg_preset := arg_preset args;
     arg_list_presets := arg_list_presets args;
     arg_config := arg_config args;
     arg_list_rules := arg_list_rules args;
     arg_show_rule := r |}.

Section FurtherVocabulary.
Context {E : Env}.

(** The files handed to [config.apply_file_config], in order. *)
Definition applied_files (t : list Event) : list string :=
  flat_map (fun e => match e with EvApplyFileConfig _ _ f => [f] | _ => [] end) t.

(** The files handed to [lint.check_file], in order. *)
Definition checked_files (t : list Event) : list string :=
  flat_map (fun e => match e with EvCheckFile _ f => [f] | _ => [] end) t.

Definition is_get_meta (e : Event) : bool :=
  match e with EvGetMeta _ => true | _ => false end.

Definition is_discover (e : Event) : bool :=
  match e with EvDiscoverConfig => true | _ => false end.

(** An outcome that leaves the process with status 0 or 1: the only
    integer ever given to [sys.exit] is 1. *)
Definition exits_plainly {A} (o : Outcome A) : Prop :=
  forall n, o = SystemExit (ExitCode n) -> n = 1.

(** A computation whose outcome is of that kind in every world. *)
Definition ends_plainly {A} (m : M A) : Prop :=
  forall w, exits_plainly (outcome_of (m w)).

End FurtherVocabulary.

(** ** An environment where things go wrong

    As [Demo], but one preset of the table has no [config] key, loading
    the rules fails, and the linter raises on [broken.sql]. *)

Module Faulty.

Definition presets : list (string * Preset (list string)) :=
  [ ("postgres",
     {| preset_description := Some "A sane set of defaults";
        preset_config := Some ["RequirePrimaryKey"] |});
    ("draft",
     {| preset_description := None;
        preset_config := None |});
    ("full",
     {| preset_description := None;
        preset_config := Some ["RequirePrimaryKey"] |}) ].

Definition load_plugins (plugin_paths : list string) : Call Demo.world unit :=
  fun w => inl (OtherException "cannot load the rules").

Definition check (file_config : nat) (file_name : string)
  : Call Demo.world (list Demo.issue) :=
  fun w =>
    if String.eqb file_name "broken.sql"
    then inl (OtherException "cannot read broken.sql")
    else Demo.check file_config file_name w.

Definition env : Env :=
  {| World := Demo.world;
     Config := nat;
     ConfigVal := Demo.cfgval;
     Plugins := list string;
     Reporter := string;
     Issue := Demo.issue;
     PresetConfig := list string;
     expanduser := Demo.expand;
     path_exists := Demo.exists_;
     path_isdir := Demo.isdir;
     iglob := Demo.glob;
     json_dumps := Demo.dumps;
     setLevel := Demo.with_level;
     PRESETS := presets;
     discover_config_location := fun w => inr (Demo.discovered w, w);
     load_config := Demo.load;
     apply_file_config := Demo.apply_file;
     cfg_read := Demo.read;
     cfg_plugins := Demo.cv_plugins;
     cfg_reporter := Demo.cv_reporter;
     load_rules := load_plugins;
     registry := Demo.rules;
     check_file := check;
     report := Demo.report_issues |}.

(** [Demo.w1] with a file [broken.sql], and a discovered configuration
    file that is not there *)
Definition w_broken : Demo.world :=
  {| Demo.home := "/home/u";
     Demo.files := ["/home/u/a.sql"; "broken.sql"; "clean.sql"];
     Demo.dirs := [];
     Demo.globs := [];
     Demo.discovered := Some ".squabblerc";
     Demo.heap := [Demo.default_config];
     Demo.rules := Demo.builtins;
     Demo.level := "WARNING";
     Demo.findings := [("/home/u/a.sql", [Demo.select_star])] |}.

End Faulty.

(** ** The registry while files are linted *)

Section RegistryVocabulary.
Context {E : Env}.

(** [args['--config'] or config.discover_config_location()], once
    [--verbose] has been looked at (line 49). *)
Definition config_location (args : Args) (w : World) : Exn + (option string * World) :=
  if truthy (arg_config args)
  then inr (arg_config args, verbose_world args w)
  else discover_config_location (verbose_world args w).

(** The run [main args w] goes through the lint phase: the location of
    the configuration file was settled in [w2] as [config_file],
    [load_config] returned [base] and left [w3], [load_rules], called on
    the plugin paths of [base], returned and left [w4], and from there
    on the run is the lint phase on [base] and [PATHS]. *)
Definition reaches_lint_phase (args : Args) (w : World)
    (config_file : option string) (w2 : World) (base : Config) (w3 w4 : World) : Prop :=
  config_location args w = inr (config_file, w2) /\
  load_config config_file (arg_preset args) w2 = inr (base, w3) /\
  load_rules (cfg_plugins (cfg_read w3 base)) w3 = inr (tt, w4) /\
  main args w =
    (outcome_of (lint_phase base (arg_PATHS args) w4),
     world_of (lint_phase base (arg_PATHS args) w4),
     (verbose_events args ++ config_events args config_file)
       ++ [EvLoadConfig config_file (arg_preset args);
           EvLoadRules (cfg_plugins (cfg_read w3 base))]
       ++ trace_of (lint_phase base (arg_PATHS args) w4)).

(** Modelled from the spec: [config.apply_file_config] is not part of
    the sources at hand.  Section 5: "The Rule Registry must be fully
    populated and frozen (no further register calls) before any worker
    begins"; per-file processing shares "the read-only Rule Registry
    (immutable after the load phase completes)". *)
Definition apply_file_config_keeps_registry : Prop :=
  forall base file_name w file_config w',
    apply_file_config base file_name w = inr (file_config, w') ->
    registry w' = registry w.

(** Modelled from the spec: [lint.check_file] is not part of the
    sources at hand.  Section 5, as above: the registry is read-only
    once the load phase is over. *)
Definition check_file_keeps_registry : Prop :=
  forall file_config file_name w found w',
    check_file file_config file_name w = inr (found, w') ->
    registry w' = registry w.

(** Modelled from the spec: [reporter.report] is not part of the
    sources at hand.  Section 3: the Reporter owns the issues "for
    formatting only"; section 5, as above. *)
Definition report_keeps_registry : Prop :=
  forall rep issues w u w',
    report rep issues w = inr (u, w') ->
    registry w' = registry w.

End RegistryVocabulary.

(** ** What the recursive pattern matches

    [glob.iglob] belongs to Python's standard library.  For the pattern
    [<directory>/**/*.sql] its documentation gives: [**] stands for the
    directory itself and any chain of subdirectories below it, [*.sql]
    for any entry (file or directory) whose name ends in [.sql]; a name
    that begins with a dot is matched by neither. *)

(** [rel.split('/')] *)
Fixpoint split_sep (s : string) : list string :=
  match s with
  | EmptyString => [EmptyString]
  | String c rest =>
      if Ascii.eqb c "/" then EmptyString :: split_sep rest
      else match split_sep rest with
           | l :: ls => String c l :: ls
           | [] => [String c EmptyString]
           end
  end.

(** the last component of a relative path *)
Definition basename (rel : string) : string := List.last (split_sep rel) EmptyString.

(** [s.endswith(suffix)] *)
Fixpoint ends_with (suffix s : string) : bool :=
  String.eqb s suffix ||
  match s with
  | String _ rest => ends_with suffix rest
  | EmptyString => false
  end.

(** a name that begins with a dot *)
Definition hidden (name : string) : bool :=
  match name with
  | String c _ => Ascii.eqb c "."
  | EmptyString => false
  end.

Definition visible_component (name : string) : bool :=
  negb (String.eqb name "") && negb (hidden name).

(** A path relative to the directory that the pattern [**/*.sql]
    matches: no component begins with a dot, the last ends in [.sql]. *)
Definition visible_sql (rel : string) : bool :=
  forallb visible_component (split_sep rel) && ends_with ".sql" (basename rel).

(** [glob.has_magic]: the characters that make a pattern of a name *)
Fixpoint has_magic (s : string) : bool :=
  match s with
  | EmptyString => false
  | String c rest =>
      Ascii.eqb c "*" || Ascii.eqb c "?" || Ascii.eqb c "[" || has_magic rest
  end.

(** A directory path the pattern is built from as it stands: not
    empty, without a trailing separator, without a magic character. *)
Definition plain (d : string) : bool :=
  negb (String.eqb d "") && negb (endswith_sep d) && negb (has_magic d).

(** The test of a path against the pattern [<prefix>**/*.sql]. *)
Fixpoint glob_match (pattern path : string) : bool :=
  if String.eqb pattern "**/*.sql" then visible_sql path
  else match pattern, path with
       | String a pattern', String b path' => Ascii.eqb a b && glob_match pattern' path'
       | _, _ => false
       end.

Section GlobVocabulary.
Context {E : Env}.


End GlobVocabulary.

(** ** An environment with a file system that is searched

    As [Demo], but [glob] looks through the files and directories of
    the world instead of a table of answers. *)

Module Posix.

Definition glob (w : Demo.world) (pattern : string) (recursive : bool) : list string :=
  List.filter (glob_match pattern) (Demo.files w ++ Demo.dirs w).

Definition env : Env :=
  {| World := Demo.world;
     Config := nat;
     ConfigVal := Demo.cfgval;
     Plugins := list string;
     Reporter := string;
     Issue := Demo.issue;
     PresetConfig := list string;
     expanduser := Demo.expand;
     path_exists := Demo.exists_;
     path_isdir := Demo.isdir;
     iglob := glob;
     json_dumps := Demo.dumps;
     setLevel := Demo.with_level;
     PRESETS := Demo.presets;
     discover_config_location := fun w => inr (Demo.discovered w, w);
     load_config := Demo.load;
     apply_file_config := Demo.apply_file;
     cfg_read := Demo.read;
     cfg_plugins := Demo.cv_plugins;
     cfg_reporter := Demo.cv_reporter;
     load_rules := Demo.load_plugins;
     registry := Demo.rules;
     check_file := Demo.check;
     report := Demo.report_issues |}.

(** under [db]: a file [t.sql], a hidden file [.draft.sql], a file in
    the hidden directory [.git], a file in the directory [sub], and a
    directory named [archive.sql] *)
Definition w : Demo.world :=
  {| Demo.home := "/home/u";
     Demo.files := ["clean.sql"; "db/t.sql"; "db/.draft.sql"; "db/.git/x.sql";
                    "db/sub/u.sql"; "db/notes.txt"];
     Demo.dirs := ["db"; "db/.git"; "db/sub"; "db/archive.sql"];
     Demo.globs := [];
     Demo.discovered := None;
     Demo.heap := [];
     Demo.rules := ∅;
     Demo.level := "WARNING";
     Demo.findings := [] |}.

End Posix.

(** ** An environment where the reporter fails

    As [Demo], but [reporter.report] raises. *)

Module BrokenReporter.

Definition report_issues (reporter : string) (issues : list Demo.issue)
  : Call Demo.world unit :=
  fun w => inl (OtherException "unknown reporter").

Definition env : Env :=
  {| World := Demo.world;
     Config := nat;
     ConfigVal := Demo.cfgval;
     Plugins := list string;
     Reporter := string;
     Issue := Demo.issue;
     PresetConfig := list string;
     expanduser := Demo.expand;
     path_exists := Demo.exists_;
     path_isdir := Demo.isdir;
     iglob := Demo.glob;
     json_dumps := Demo.dumps;
     setLevel := Demo.with_level;
     PRESETS := Demo.presets;
     discover_config_location := fun w => inr (Demo.discovered w, w);
     load_config := Demo.load;
     apply_file_config := Demo.apply_file;
     cfg_read := Demo.read;
     cfg_plugins := Demo.cv_plugins;
     cfg_reporter := Demo.cv_reporter;
     load_rules := Demo.load_plugins;
     registry := Demo.rules;
     check_file := Demo.check;
     report := report_issues |}.

End BrokenReporter.

(** * Properties *)

(** ** The helpers on small inputs *)

Example truthy_of_empty_string : truthy (Some "") = false /\ truthy None = false.
Proof. split; reflexivity. Qed.

Example path_join_directory : path_join "db" "**/*.sql" = "db/**/*.sql".
Proof. reflexivity. Qed.

Example path_join_trailing_separator : path_join "db/" "**/*.sql" = "db/**/*.sql".
Proof. reflexivity. Qed.

Example replace_newlines_indents :
  replace_newlines left_pad ("[" +:+ String LF "1," +:+ String LF "]")
  = "[" +:+ String LF "    1," +:+ String LF "    ]".
Proof. reflexivity. Qed.

Example ljust32_fills : String.length (ljust32 "RequirePrimaryKey") = 32%nat.
Proof. reflexivity. Qed.

Example ljust32_counts_characters :
  String.length (ljust32 ("R" +:+ String (ascii_of_nat 195) (String (ascii_of_nat 168) "gle")))
  = 33%nat.
Proof. reflexivity. Qed.

Example ljust32_keeps_long_names :
  ljust32 "DisallowChangingTheTypeOfAnExistingColumn"
  = "DisallowChangingTheTypeOfAnExistingColumn".
Proof. reflexivity. Qed.

Example sorted_by_name_orders :
  map meta_name
    (sorted_by_name
       [ {| meta_name := "b"; meta_description := "1"; meta_help := "" |};
         {| meta_name := "a"; meta_description := "2"; meta_help := "" |};
         {| meta_name := "B"; meta_description := "3"; meta_help := "" |} ])
  = ["B"; "a"; "b"].
Proof. reflexivity. Qed.

Example exit_status_of_sys_exit_1 : exit_status (@SystemExit unit (ExitCode 1)) = 1.
Proof. reflexivity. Qed.

Example demo_expand_home :
  Demo.expand Demo.w0 "~/a.sql" = "/home/u/a.sql" /\
  Demo.expand Demo.w0 "~" = "/home/u" /\
  Demo.expand Demo.w0 "db/~x.sql" = "db/~x.sql".
Proof. repeat split; reflexivity. Qed.

(** [squabble ~/a.sql db clean.sql]: three files are collected, two
    issues are found, the run exits with status 1. *)
Example demo_run :
  outcome_of (main (E := Demo.env) (Demo.args_of ["~/a.sql"; "db"; "clean.sql"]) Demo.w0)
    = SystemExit (ExitCode 1) /\
  outcome_of (collect_files (E := Demo.env) ["~/a.sql"; "db"; "clean.sql"] Demo.w0)
    = Returned ["/home/u/a.sql"; "db/t.sql"; "clean.sql"].
Proof. split; vm_compute; reflexivity. Qed.

(** [squabble --show-rule NoSuchRule]: the configuration and the rules
    are loaded, then the run exits on the unknown name. *)
Example demo_show_unknown_rule :
  main (E := Demo.env) Demo.args_show_rule Demo.w0 =
    (SystemExit (ExitMsg (BRIGHT +:+ "Unknown rule:" +:+ RESET_ALL +:+ " NoSuchRule")),
     Demo.w1,
     [EvDiscoverConfig; EvLoadConfig None None; @EvLoadRules Demo.env [];
      EvGetMeta "NoSuchRule"]).
Proof. vm_compute. reflexivity. Qed.

Example split_sep_components : split_sep "sub/u.sql" = ["sub"; "u.sql"].
Proof. reflexivity. Qed.

Example visible_sql_below : visible_sql "sub/u.sql" = true.
Proof. reflexivity. Qed.

Example visible_sql_hidden_file : visible_sql ".draft.sql" = false.
Proof. reflexivity. Qed.

Example visible_sql_hidden_directory : visible_sql ".git/x.sql" = false.
Proof. reflexivity. Qed.

Example visible_sql_other_suffix : visible_sql "notes.txt" = false.
Proof. reflexivity. Qed.

Example visible_sql_empty_component : visible_sql "sub//u.sql" = false.
Proof. reflexivity. Qed.

Example plain_directory : plain "db" = true /\ plain "db/" = false /\ plain "a[b]" = false.
Proof. repeat split. Qed.

Example glob_match_below : glob_match "db/**/*.sql" "db/sub/u.sql" = true.
Proof. reflexivity. Qed.

Example glob_match_elsewhere : glob_match "db/**/*.sql" "clean.sql" = false.
Proof. reflexivity. Qed.

Example posix_glob_db :
  Posix.glob Posix.w "db/**/*.sql" true = ["db/t.sql"; "db/sub/u.sql"; "db/archive.sql"].
Proof. reflexivity. Qed.

Section Runs.
Context {E : Env}.

(** ** Running the monad *)

Lemma bind_returned {A B} (m : M A) (k : A -> M B) w a w1 t1 :
  m w = (Returned a, w1, t1) ->
  bind m k w = (outcome_of (k a w1), world_of (k a w1), t1 ++ trace_of (k a w1)).
Proof.
  intros Hm. unfold bind. rewrite Hm.
  destruct (k a w1) as [[o w2] t2]. reflexivity.
Qed.

Lemma bind_exit {A B} (m : M A) (k : A -> M B) w x w1 t1 :
  m w = (SystemExit x, w1, t1) ->
  bind m k w = (SystemExit x, w1, t1).
Proof. intros Hm. unfold bind. rewrite Hm. reflexivity. Qed.

Lemma bind_uncaught {A B} (m : M A) (k : A -> M B) w e w1 t1 :
  m w = (Uncaught e, w1, t1) ->
  bind m k w = (Uncaught e, w1, t1).
Proof. intros Hm. unfold bind. rewrite Hm. reflexivity. Qed.

Lemma run_eta {A} (r : Outcome A * World * list Event) :
  r = (outcome_of r, world_of r, trace_of r).
Proof. destruct r as [[o w] t]. reflexivity. Qed.

Lemma emits_bind {A B} P (m : M A) (k : A -> M B) :
  emits P m -> (forall a, emits P (k a)) -> emits P (bind m k).
Proof.
  intros Hm Hk w. unfold bind. specialize (Hm w).
  destruct (m w) as [[[a | x | e] w1] t1]; simpl in *; try assumption.
  specialize (Hk a w1). destruct (k a w1) as [[o w2] t2]; simpl in *.
  apply Forall_app; split; assumption.
Qed.

Lemma emits_ret {A} P (a : A) : emits P (ret a).
Proof. intros w. constructor. Qed.

Lemma emits_sys_exit {A} P x : emits P (@sys_exit E A x).
Proof. intros w. constructor. Qed.

Lemma emits_raise {A} P e : emits P (@raise E A e).
Proof. intros w. constructor. Qed.

Lemma emits_peek {A} P (q : World -> A) : emits P (peek q).
Proof. intros w. constructor. Qed.

Lemma emits_query {A} (P : Event -> Prop) ev (q : World -> A) :
  P ev -> emits P (query ev q).
Proof. intros Hev w. simpl. constructor; [assumption | constructor]. Qed.

Lemma emits_print (P : Event -> Prop) text :
  P (EvPrint text) -> emits P (print text).
Proof. intros Hev w. simpl. constructor; [assumption | constructor]. Qed.

Lemma emits_call {A} (P : Event -> Prop) ev (c : Call World A) :
  P ev -> emits P (call ev c).
Proof.
  intros Hev w. unfold call.
  destruct (c w) as [e | [a w']]; simpl; constructor; (assumption || constructor).
Qed.

Lemma emits_except {A} P (m h : M A) :
  emits P m -> emits P h -> emits P (except_UnknownRule m h).
Proof.
  intros Hm Hh w. unfold except_UnknownRule. specialize (Hm w).
  destruct (m w) as [[[a | x | [name | key | what]] w1] t1]; simpl in *; try assumption.
  specialize (Hh w1). destruct (h w1) as [[o w2] t2]; simpl in *.
  apply Forall_app; split; assumption.
Qed.

(** ** [collect_files] *)

Lemma collect_files_loop_world paths files w :
  world_of (collect_files_loop paths files w) = w.
Proof.
  revert files. induction paths as [| p rest IH]; intros files; simpl.
  - reflexivity.
  - unfold bind, peek, query; simpl.
    destruct (path_exists w (expanduser w p)); simpl; [| reflexivity].
    destruct (path_isdir w (expanduser w p)); simpl.
    + specialize (IH (files ++ iglob w (path_join (expanduser w p) "**/*.sql") true)).
      destruct (collect_files_loop rest _ w) as [[o w2] t2]. exact IH.
    + specialize (IH (files ++ [expanduser w p])).
      destruct (collect_files_loop rest _ w) as [[o w2] t2]. exact IH.
Qed.

(** One more existing path in front: its contribution joins the list,
    its events come first. *)
Lemma collect_files_loop_step p rest files w :
  path_exists w (expanduser w p) = true ->
  collect_files_loop (p :: rest) files w =
  (outcome_of (collect_files_loop rest (files ++ collected_for w p) w),
   w,
   collect_events w p ++ trace_of (collect_files_loop rest (files ++ collected_for w p) w)).
Proof.
  intros Hex. simpl. unfold bind, peek, query, collected_for, collect_events; simpl.
  rewrite Hex; simpl.
  destruct (path_isdir w (expanduser w p)); simpl.
  - pose proof (collect_files_loop_world rest
        (files ++ iglob w (path_join (expanduser w p) "**/*.sql") true) w) as Hw.
    destruct (collect_files_loop rest _ w) as [[o w2] t2].
    unfold world_of in Hw; simpl in Hw. subst w2.
    reflexivity.
  - pose proof (collect_files_loop_world rest (files ++ [expanduser w p]) w) as Hw.
    destruct (collect_files_loop rest _ w) as [[o w2] t2].
    unfold world_of in Hw; simpl in Hw. subst w2.
    reflexivity.
Qed.

Lemma collect_files_loop_missing p rest files w :
  path_exists w (expanduser w p) = false ->
  collect_files_loop (p :: rest) files w =
  (SystemExit (ExitMsg (expanduser w p +:+ ": no such file or directory")), w,
   [EvCollectPath (expanduser w p)]).
Proof.
  intros Hex. simpl. unfold bind, peek, query; simpl. rewrite Hex. reflexivity.
Qed.

Lemma collect_files_loop_all_exist paths files w :
  Forall (fun p => path_exists w (expanduser w p) = true) paths ->
  collect_files_loop paths files w =
  (Returned (files ++ flat_map (collected_for w) paths), w,
   flat_map (collect_events w) paths).
Proof.
  intros Hall. revert files.
  induction Hall as [| p rest Hp Hrest IH]; intros files.
  - simpl. unfold ret. rewrite app_nil_r. reflexivity.
  - rewrite collect_files_loop_step by assumption.
    rewrite IH. unfold outcome_of, trace_of; simpl.
    rewrite <- app_assoc. reflexivity.
Qed.

Lemma collect_files_loop_first_missing ok p rest files w :
  Forall (fun q => path_exists w (expanduser w q) = true) ok ->
  path_exists w (expanduser w p) = false ->
  collect_files_loop (ok ++ p :: rest) files w =
  (SystemExit (ExitMsg (expanduser w p +:+ ": no such file or directory")), w,
   flat_map (collect_events w) ok ++ [EvCollectPath (expanduser w p)]).
Proof.
  intros Hok Hp. revert files.
  induction Hok as [| q ok' Hq Hok' IH]; intros files.
  - simpl app. apply collect_files_loop_missing. assumption.
  - change ((q :: ok') ++ p :: rest) with (q :: (ok' ++ p :: rest)).
    rewrite collect_files_loop_step by assumption.
    rewrite IH. unfold outcome_of, trace_of; simpl.
    rewrite <- app_assoc. reflexivity.
Qed.

Lemma first_missing (w : World) paths :
  Exists (fun p => path_exists w (expanduser w p) = false) paths ->
  exists ok p rest,
    paths = ok ++ p :: rest /\
    Forall (fun q => path_exists w (expanduser w q) = true) ok /\
    path_exists w (expanduser w p) = false.
Proof.
  induction paths as [| q paths IH]; intros Hex.
  - inversion Hex.
  - destruct (path_exists w (expanduser w q)) eqn:Hq.
    + inversion Hex as [? ? Hbad | ? ? Hlater]; subst.
      * congruence.
      * destruct (IH Hlater) as (ok & p & rest & -> & Hok & Hp).
        exists (q :: ok), p, rest. repeat split; try assumption.
        constructor; assumption.
    + exists [], q, paths. repeat split; [constructor | assumption].
Qed.

Lemma collect_events_are_collect w p :
  Forall (fun e => is_collect_event e = true) (collect_events w p).
Proof.
  unfold collect_events.
  destruct (path_isdir w (expanduser w p)); repeat constructor.
Qed.

Lemma emits_collect_files_loop paths files :
  emits (fun e => is_collect_event e = true) (collect_files_loop paths files).
Proof.
  revert files. induction paths as [| p rest IH]; intros files; simpl.
  - apply emits_ret.
  - apply emits_bind; [apply emits_peek |]. intros path.
    apply emits_bind; [apply emits_query; reflexivity |]. intros found.
    destruct found; simpl; [| apply emits_sys_exit].
    apply emits_bind; [apply emits_peek |]. intros isdir.
    destruct isdir.
    + apply emits_bind; [apply emits_query; reflexivity |]. intros matches. apply IH.
    + apply IH.
Qed.

(** ** [lint_file] and the loop over the files *)

Lemma lint_file_run base file_name w :
  lint_file base file_name w =
  match apply_file_config base file_name w with
  | inl e => (Uncaught e, w, [EvApplyFileConfig base (cfg_read w base) file_name])
  | inr (file_config, w1) =>
      match check_file file_config file_name w1 with
      | inl e =>
          (Uncaught e, w1,
           [EvApplyFileConfig base (cfg_read w base) file_name;
            EvCheckFile file_config file_name])
      | inr (found, w2) =>
          (Returned found, w2,
           [EvApplyFileConfig base (cfg_read w base) file_name;
            EvCheckFile file_config file_name])
      end
  end.
Proof.
  unfold lint_file, bind, call.
  destruct (apply_file_config base file_name w) as [e | [file_config w1]]; [reflexivity |].
  destruct (check_file file_config file_name w1) as [e | [found w2]]; reflexivity.
Qed.

Lemma emits_lint_file base file_name :
  emits (fun e => is_lint_event e = true) (lint_file base file_name).
Proof.
  intros w. rewrite lint_file_run.
  destruct (apply_file_config base file_name w) as [e | [file_config w1]];
    [repeat constructor |].
  destruct (check_file file_config file_name w1) as [e | [found w2]];
    repeat constructor.
Qed.

Lemma emits_lint_loop base files issues :
  emits (fun e => is_lint_event e = true) (lint_loop base files issues).
Proof.
  revert issues. induction files as [| f rest IH]; intros issues; simpl.
  - apply emits_ret.
  - apply emits_bind; [apply emits_lint_file |]. intros found. apply IH.
Qed.

(** When the loop returns, it returns what the calls of [lint_file]
    returned, appended in the order of the files. *)
Lemma lint_loop_returned base files issues w result w' t :
  lint_loop base files issues w = (Returned result, w', t) ->
  exists founds,
    lint_each base files w founds w' /\ result = issues ++ concat founds.
Proof.
  revert issues w t. induction files as [| f rest IH]; intros issues w t Hrun.
  - simpl in Hrun. unfold ret in Hrun. inversion Hrun; subst.
    exists []. split; [constructor | simpl; rewrite app_nil_r; reflexivity].
  - simpl in Hrun. unfold bind in Hrun.
    destruct (lint_file base f w) as [[[found | x | e] w1] t1] eqn:Hf;
      try discriminate.
    destruct (lint_loop base rest (issues ++ found) w1) as [[o w2] t2] eqn:Hrest.
    inversion Hrun; subst.
    destruct (IH _ _ _ Hrest) as (founds & Heach & ->).
    exists (found :: founds). split.
    + econstructor; eassumption.
    + simpl. rewrite app_assoc. reflexivity.
Qed.

(** When every call of [lint_file] returns, so does the loop. *)
Lemma lint_each_loop base files w founds w' issues :
  lint_each base files w founds w' ->
  exists t, lint_loop base files issues w = (Returned (issues ++ concat founds), w', t).
Proof.
  intros Heach. revert issues.
  induction Heach as [w | f rest w found w1 t founds w2 Hf Heach IH]; intros issues.
  - exists []. simpl. unfold ret. rewrite app_nil_r. reflexivity.
  - destruct (IH (issues ++ found)) as (t2 & Hrest).
    exists (t ++ t2). simpl. unfold bind. rewrite Hf, Hrest.
    rewrite <- app_assoc. reflexivity.
Qed.

Lemma lint_each_length base files w founds w' :
  lint_each base files w founds w' -> length founds = length files.
Proof.
  induction 1; simpl; congruence.
Qed.



(** ** The introspection commands *)

Lemma emits_list_presets_loop (P : Event -> Prop) items :
  (forall text, P (EvPrint text)) -> emits P (list_presets_loop items).
Proof.
  intros HP. induction items as [| [name preset] rest IH]; simpl.
  - apply emits_ret.
  - apply emits_bind; [apply emits_print, HP |]. intros _.
    destruct (preset_config preset); [| apply emits_raise].
    apply emits_bind; [apply emits_print, HP |]. intros _. exact IH.
Qed.

Lemma list_presets_loop_run items w :
  Forall (fun item : string * Preset PresetConfig => preset_config (snd item) <> None) items ->
  list_presets_loop items w = (Returned tt, w, map EvPrint (flat_map preset_lines items)).
Proof.
  induction 1 as [| [name preset] rest Hcfg Hrest IH]; simpl.
  - reflexivity.
  - unfold bind, print, preset_lines; simpl in *.
    destruct (preset_config preset) as [c |]; [| congruence].
    simpl. rewrite IH. reflexivity.
Qed.

Lemma emits_list_rules_loop (P : Event -> Prop) metas :
  (forall text, P (EvPrint text)) -> emits P (list_rules_loop metas).
Proof.
  intros HP. induction metas as [| meta rest IH]; simpl.
  - apply emits_ret.
  - apply emits_bind; [apply emits_print, HP |]. intros _. exact IH.
Qed.

Lemma emits_list_rules :
  emits (fun e => is_introspection_event e = true) list_rules.
Proof.
  unfold list_rules, registry_all.
  apply emits_bind; [apply emits_query; reflexivity |]. intros metas.
  apply emits_list_rules_loop. reflexivity.
Qed.

Lemma show_rule_run name w :
  show_rule name w =
  match registry w !! name with
  | Some meta =>
      (Returned tt, w,
       [EvGetMeta name;
        EvPrint (BRIGHT +:+ meta_name meta +:+ RESET_ALL +:+ " - "
                 +:+ meta_description meta +:+ String LF (meta_help meta))])
  | None =>
      (SystemExit (ExitMsg (BRIGHT +:+ "Unknown rule:" +:+ RESET_ALL +:+ " " +:+ name)),
       w, [EvGetMeta name])
  end.
Proof.
  unfold show_rule, bind, except_UnknownRule, get_meta, sys_exit, print.
  destruct (registry w !! name) as [meta |]; reflexivity.
Qed.

Lemma emits_show_rule name :
  emits (fun e => is_introspection_event e = true) (show_rule name).
Proof.
  intros w. rewrite show_rule_run.
  destruct (registry w !! name); repeat constructor.
Qed.

(** ** The end of [main], from the collection of the files on *)

Lemma lint_phase_run base paths w :
  lint_phase base paths w =
  match collect_files paths w with
  | (Returned files, _, tc) =>
      match lint_loop base files [] w with
      | (Returned issues, w2, tl) =>
          let rep := cfg_reporter (cfg_read w2 base) in
          match report rep issues w2 with
          | inl e => (Uncaught e, w2, tc ++ tl ++ [EvReport rep issues])
          | inr (_, w3) =>
              (if nonempty issues then SystemExit (ExitCode 1) else Returned tt,
               w3, tc ++ tl ++ [EvReport rep issues])
          end
      | (SystemExit x, w2, tl) => (SystemExit x, w2, tc ++ tl)
      | (Uncaught e, w2, tl) => (Uncaught e, w2, tc ++ tl)
      end
  | (SystemExit x, _, tc) => (SystemExit x, w, tc)
  | (Uncaught e, _, tc) => (Uncaught e, w, tc)
  end.
Proof.
  unfold lint_phase, collect_files, bind.
  pose proof (collect_files_loop_world paths [] w) as Hw.
  destruct (collect_files_loop paths [] w) as [[[files | x | e] w1] tc];
    unfold world_of in Hw; simpl in Hw; subst w1; try reflexivity.
  destruct (lint_loop base files [] w) as [[[issues | x | e] w2] tl]; try reflexivity.
  unfold peek, call; simpl.
  destruct (report (cfg_reporter (cfg_read w2 base)) issues w2) as [e | [[] w3]];
    simpl; [reflexivity |].
  destruct issues; simpl; unfold sys_exit, ret; rewrite ?app_nil_r; reflexivity.
Qed.

(** ** [main], step by step *)

Lemma main_run args w :
  main args w =
  let w1 := verbose_world args w in
  let tv := verbose_events args in
  if arg_list_presets args
  then (outcome_of (list_presets w1), world_of (list_presets w1),
        tv ++ trace_of (list_presets w1))
  else
    match (if truthy (arg_config args)
           then inr (arg_config args, w1)
           else discover_config_location w1) with
    | inl e => (Uncaught e, w1, tv ++ [EvDiscoverConfig])
    | inr (config_file, w2) =>
        let ts := tv ++ config_events args config_file in
        if truthy config_file && negb (path_exists w2 (str_of config_file))
        then (SystemExit (ExitMsg (str_of config_file +:+ ": no such file or directory")),
              w2, ts)
        else
          match load_config config_file (arg_preset args) w2 with
          | inl e => (Uncaught e, w2, ts ++ [EvLoadConfig config_file (arg_preset args)])
          | inr (base, w3) =>
              let plugins := cfg_plugins (cfg_read w3 base) in
              let tl := [EvLoadConfig config_file (arg_preset args); EvLoadRules plugins] in
              match load_rules plugins w3 with
              | inl e => (Uncaught e, w3, ts ++ tl)
              | inr (_, w4) =>
                  (outcome_of (command args base w4), world_of (command args base w4),
                   ts ++ tl ++ trace_of (command args base w4))
              end
          end
    end.
Proof.
  unfold main, verbose_world, verbose_events, config_events, command.
  fold (lint_phase).
  change (files <- collect_files (arg_PATHS args) ;;
          issues <- lint_loop ?b files [] ;;
          rep <- peek (fun w => cfg_reporter (cfg_read w ?b)) ;;
          call (EvReport rep issues) (report rep issues) ;;;
          if nonempty issues then sys_exit (ExitCode 1) else ret tt)
    with (lint_phase b (arg_PATHS args)).
  destruct (arg_verbose args), (arg_list_presets args); unfold bind at 1; simpl.
  all: try (destruct (list_presets _) as [[o w'] t]; reflexivity).
  all: destruct (truthy (arg_config args)) eqn:Hc; simpl.
  all: unfold bind, ret, call, query, peek, sys_exit; simpl.
  all: rewrite ?Hc; simpl.
  all: try destruct (discover_config_location _) as [e | [config_file w2]]; simpl;
    try reflexivity.
  all: try destruct (truthy config_file); simpl.
  all: try destruct (path_exists _ _); simpl; try reflexivity.
  all: destruct (load_config _ _ _) as [e | [base w3]]; simpl; try reflexivity.
  all: destruct (load_rules _ _) as [e | [[] w4]]; simpl; try reflexivity.
  all: destruct (arg_list_rules args); simpl;
    [ destruct (list_rules w4) as [[o w5] t5]; reflexivity |].
  all: destruct (truthy (arg_show_rule args)); simpl;
    [ destruct (show_rule _ w4) as [[o w5] t5]; reflexivity
    | destruct (lint_phase _ _ w4) as [[o w5] t5]; reflexivity ].
Qed.

(** ** The shape of a run *)

Lemma emits_impl {A} (P Q : Event -> Prop) (m : M A) :
  (forall e, P e -> Q e) -> emits P m -> emits Q m.
Proof.
  intros HPQ Hm w. apply (List.Forall_impl _ HPQ). apply Hm.
Qed.

Lemma collect_is_work e : is_collect_event e = true -> is_work_event e = true.
Proof. destruct e; intros H; try discriminate H; reflexivity. Qed.

Lemma lint_is_work e : is_lint_event e = true -> is_work_event e = true.
Proof. destruct e; intros H; try discriminate H; reflexivity. Qed.

Lemma introspection_is_work e : is_introspection_event e = true -> is_work_event e = true.
Proof. destruct e; intros H; try discriminate H; reflexivity. Qed.

Lemma emits_lint_phase base paths :
  emits (fun e => is_work_event e = true) (lint_phase base paths).
Proof.
  unfold lint_phase, collect_files.
  apply emits_bind.
  { apply (emits_impl (fun e => is_collect_event e = true));
    [apply collect_is_work | apply emits_collect_files_loop]. }
  intros files. apply emits_bind.
  { apply (emits_impl (fun e => is_lint_event e = true));
    [apply lint_is_work | apply emits_lint_loop]. }
  intros issues. apply emits_bind; [apply emits_peek |].
  intros rep. apply emits_bind; [apply emits_call; reflexivity |].
  intros _. destruct (nonempty issues); [apply emits_sys_exit | apply emits_ret].
Qed.

Lemma emits_command args base :
  emits (fun e => is_work_event e = true) (command args base).
Proof.
  unfold command.
  destruct (arg_list_rules args).
  { apply (emits_impl (fun e => is_introspection_event e = true));
    [apply introspection_is_work | apply emits_list_rules]. }
  destruct (truthy (arg_show_rule args)).
  { apply (emits_impl (fun e => is_introspection_event e = true));
    [apply introspection_is_work | apply emits_show_rule]. }
  apply emits_lint_phase.
Qed.

Lemma verbose_events_setup args :
  Forall (fun e => is_setup_event e = true) (verbose_events args).
Proof. unfold verbose_events. destruct (arg_verbose args); repeat constructor. Qed.

Lemma config_events_setup args config_file :
  Forall (fun e => is_setup_event e = true) (config_events args config_file).
Proof.
  unfold config_events.
  destruct (truthy (arg_config args)), (truthy config_file); repeat constructor.
Qed.

(** A run goes through setup events; then, if it gets that far, loads
    the configuration; then, if that returned, loads the rules from the
    plugin paths of that configuration; and only then does any work. *)
Lemma main_shape args w :
  exists s,
    Forall (fun e => is_setup_event e = true) s /\
    (trace_of (main args w) = s \/
     (exists cf, trace_of (main args w) = s ++ [EvLoadConfig cf (arg_preset args)]) \/
     (exists cf w2 base w3 k,
        load_config cf (arg_preset args) w2 = inr (base, w3) /\
        Forall (fun e => is_work_event e = true) k /\
        trace_of (main args w) =
          s ++ [EvLoadConfig cf (arg_preset args);
                EvLoadRules (cfg_plugins (cfg_read w3 base))] ++ k)).
Proof.
  rewrite main_run. cbv zeta.
  pose proof (verbose_events_setup args) as Hv.
  destruct (arg_list_presets args).
  { eexists. split; [| left; reflexivity]. unfold trace_of; simpl.
    apply Forall_app. split; [exact Hv |].
    apply (emits_list_presets_loop (fun e => is_setup_event e = true) PRESETS
             (fun _ => eq_refl) (verbose_world args w)). }
  destruct (if truthy (arg_config args)
            then inr (arg_config args, verbose_world args w)
            else discover_config_location (verbose_world args w))
    as [e | [config_file w2]] eqn:Hcf.
  { eexists. split; [| left; reflexivity]. unfold trace_of; simpl.
    apply Forall_app. split; [exact Hv | repeat constructor]. }
  assert (Hs : Forall (fun e => is_setup_event e = true)
                 (verbose_events args ++ config_events args config_file)).
  { apply Forall_app. split; [exact Hv | apply config_events_setup]. }
  destruct (truthy config_file && negb (path_exists w2 (str_of config_file))).
  { eexists. split; [exact Hs | left; reflexivity]. }
  destruct (load_config config_file (arg_preset args) w2) as [e | [base w3]] eqn:Hload.
  { eexists. split; [exact Hs |]. right. left. eexists. reflexivity. }
  exists (verbose_events args ++ config_events args config_file).
  split; [exact Hs |]. right. right.
  destruct (load_rules (cfg_plugins (cfg_read w3 base)) w3) as [e | [[] w4]].
  - exists config_file, w2, base, w3, []. split; [exact Hload |].
    split; [constructor |]. reflexivity.
  - exists config_file, w2, base, w3, (trace_of (command args base w4)).
    split; [exact Hload |]. split; [apply emits_command | reflexivity].
Qed.

(** ** Splitting a trace at an event *)

Lemma split_past (P : Event -> bool) s rest pre e post :
  s ++ rest = pre ++ e :: post ->
  Forall (fun x => P x = true) s ->
  P e = false ->
  exists m, pre = s ++ m /\ rest = m ++ e :: post.
Proof.
  intros Heq Hs He. revert pre Heq.
  induction Hs as [| x s Hx Hs IH]; intros pre Heq.
  - exists pre. split; [reflexivity | exact Heq].
  - destruct pre as [| y pre]; simpl in Heq.
    + inversion Heq; subst. congruence.
    + inversion Heq; subst.
      destruct (IH _ H1) as (m & -> & Hrest).
      exists m. split; [reflexivity | exact Hrest].
Qed.

Lemma not_in_all (P : Event -> bool) t pre e post :
  t = pre ++ e :: post ->
  Forall (fun x => P x = true) t ->
  P e = false -> False.
Proof.
  intros -> Hall He. apply Forall_app in Hall as [_ Hall].
  inversion Hall; subst. congruence.
Qed.

Lemma count_events_app p t1 t2 :
  count_events p (t1 ++ t2) = (count_events p t1 + count_events p t2)%nat.
Proof.
  unfold count_events. rewrite List.filter_app, length_app. reflexivity.
Qed.

Lemma count_events_none (p q : Event -> bool) t :
  (forall e, q e = true -> p e = false) ->
  Forall (fun e => q e = true) t ->
  count_events p t = 0%nat.
Proof.
  intros Hqp Hall. unfold count_events.
  induction Hall as [| e t He Hall IH]; simpl; [reflexivity |].
  rewrite (Hqp e He). exact IH.
Qed.

Lemma setup_not_load_rules e : is_setup_event e = true -> is_load_rules e = false.
Proof. destruct e; intros H; try discriminate H; reflexivity. Qed.

Lemma work_not_load_rules e : is_work_event e = true -> is_load_rules e = false.
Proof. destruct e; intros H; try discriminate H; reflexivity. Qed.



(** Where the loading of the rules stands in a run. *)
Lemma main_trace_at_load_rules args w pre e post :
  trace_of (main args w) = pre ++ e :: post ->
  is_load_rules e = true ->
  exists s cf w2 base w3,
    load_config cf (arg_preset args) w2 = inr (base, w3) /\
    Forall (fun x => is_setup_event x = true) s /\
    Forall (fun x => is_work_event x = true) post /\
    pre = s ++ [EvLoadConfig cf (arg_preset args)] /\
    e = EvLoadRules (cfg_plugins (cfg_read w3 base)).
Proof.
  intros Hsplit He.
  assert (Hns : is_setup_event e = false) by (destruct e; simpl in *; congruence).
  destruct (main_shape args w) as (s & Hs & [Ht | [(cf & Ht) | (cf & w2 & base & w3 & k & Hload & Hk & Ht)]]).
  - exfalso. rewrite Ht in Hsplit.
    exact (not_in_all is_setup_event _ _ _ _ Hsplit Hs Hns).
  - exfalso. rewrite Ht in Hsplit.
    destruct (split_past _ _ _ _ _ _ Hsplit Hs Hns) as (m & -> & Hm).
    destruct m as [| x [| y m]]; simpl in Hm; inversion Hm; subst; try discriminate;
      try (destruct m; discriminate).
  - rewrite Ht in Hsplit.
    destruct (split_past _ _ _ _ _ _ Hsplit Hs Hns) as (m & -> & Hm).
    destruct m as [| x [| y m]]; simpl in Hm; inversion Hm; subst.
    + discriminate.
    + exists s, cf, w2, base, w3. repeat split; assumption.
    + exfalso. apply Forall_app in Hk as [_ Hk].
      inversion Hk as [| ? ? Hwe Hrest]; subst.
      apply work_not_load_rules in Hwe. congruence.
Qed.

(** Where an event of the work stands in a run. *)
Lemma main_trace_at_work args w pre e post :
  trace_of (main args w) = pre ++ e :: post ->
  is_setup_event e = false ->
  is_load_config e = false ->
  is_load_rules e = false ->
  exists s cf w2 base w3 k,
    load_config cf (arg_preset args) w2 = inr (base, w3) /\
    Forall (fun x => is_setup_event x = true) s /\
    Forall (fun x => is_work_event x = true) k /\
    Forall (fun x => is_work_event x = true) post /\
    pre = s ++ [EvLoadConfig cf (arg_preset args);
                EvLoadRules (cfg_plugins (cfg_read w3 base))] ++ k.
Proof.
  intros Hsplit Hns Hnc Hnr.
  destruct (main_shape args w) as (s & Hs & [Ht | [(cf & Ht) | (cf & w2 & base & w3 & k & Hload & Hk & Ht)]]).
  - exfalso. rewrite Ht in Hsplit.
    exact (not_in_all is_setup_event _ _ _ _ Hsplit Hs Hns).
  - exfalso. rewrite Ht in Hsplit.
    destruct (split_past _ _ _ _ _ _ Hsplit Hs Hns) as (m & -> & Hm).
    destruct m as [| x [| y m]]; simpl in Hm; inversion Hm; subst; try discriminate;
      try (destruct m; discriminate).
  - rewrite Ht in Hsplit.
    destruct (split_past _ _ _ _ _ _ Hsplit Hs Hns) as (m & -> & Hm).
    destruct m as [| x [| y m]]; simpl in Hm; inversion Hm; subst; try discriminate.
    apply Forall_app in Hk as [Hm' Hk].
    inversion Hk as [| ? ? Hwe Hrest]; subst.
    exists s, cf, w2, base, w3, m. repeat split; assumption.
Qed.

(** ** When the reporter is reached *)

Lemma in_all_false (P : Event -> bool) t e :
  Forall (fun x => P x = true) t -> In e t -> P e = false -> False.
Proof.
  intros Hall Hin He. rewrite List.Forall_forall in Hall.
  specialize (Hall e Hin). congruence.
Qed.

(** ** When the lint phase is reached *)

(** The events of the lint phase: those of the collection, then those
    of the loop over the collected files, then the report. *)
Lemma lint_phase_trace base paths w :
  exists tc tl tr,
    trace_of (lint_phase base paths w) = tc ++ tl ++ tr /\
    Forall (fun e => is_collect_event e = true) tc /\
    Forall (fun e => is_report_event e = true) tr /\
    (tl = [] \/
     exists files,
       outcome_of (collect_files paths w) = Returned files /\
       tl = trace_of (lint_loop base files [] w)).
Proof.
  rewrite lint_phase_run. unfold collect_files.
  pose proof (emits_collect_files_loop paths [] w) as Hc.
  destruct (collect_files_loop paths [] w) as [[[files | x | e] w'] tc];
    unfold trace_of in Hc; simpl in Hc.
  2, 3: exists tc, [], []; rewrite !app_nil_r;
    (split; [reflexivity |]); (split; [exact Hc |]); (split; [constructor |]);
    left; reflexivity.
  destruct (lint_loop base files [] w) as [[[found | x | e] w5] tl] eqn:Hloop.
  2, 3: exists tc, tl, []; rewrite !app_nil_r;
    (split; [reflexivity |]); (split; [exact Hc |]); (split; [constructor |]);
    right; exists files; split; [reflexivity | rewrite Hloop; reflexivity].
  exists tc, tl, [EvReport (cfg_reporter (cfg_read w5 base)) found].
  split.
  { cbv zeta.
    destruct (report (cfg_reporter (cfg_read w5 base)) found w5) as [e | [[] w6]];
      reflexivity. }
  split; [exact Hc |]. split; [repeat constructor |].
  right. exists files. split; [reflexivity | rewrite Hloop; reflexivity].
Qed.

Lemma setup_not_lint e : is_setup_event e = true -> is_lint_event e = false.
Proof. destruct e; intros H; try discriminate H; reflexivity. Qed.


Lemma collect_not_lint e : is_collect_event e = true -> is_lint_event e = false.
Proof. destruct e; intros H; try discriminate H; reflexivity. Qed.

Lemma report_not_lint e : is_report_event e = true -> is_lint_event e = false.
Proof. destruct e; intros H; try discriminate H; reflexivity. Qed.


Lemma setup_quiet e :
  is_setup_event e = true -> is_lint_event e = false /\ is_report_event e = false.
Proof. destruct e; intros H; try discriminate H; split; reflexivity. Qed.

Lemma introspection_quiet e :
  is_introspection_event e = true -> is_lint_event e = false /\ is_report_event e = false.
Proof. destruct e; intros H; try discriminate H; split; reflexivity. Qed.

(** Either the run lints no file and calls no reporter, or it goes
    through the lint phase. *)
Lemma main_lint_run args w :
  Forall (fun e => is_lint_event e = false /\ is_report_event e = false)
    (trace_of (main args w)) \/
  exists cf w2 base w3 w4, reaches_lint_phase args w cf w2 base w3 w4.
Proof.
  unfold reaches_lint_phase, config_location. rewrite main_run. cbv zeta.
  assert (Hv : Forall (fun e => is_lint_event e = false /\ is_report_event e = false)
                 (verbose_events args)).
  { apply (List.Forall_impl _ setup_quiet), verbose_events_setup. }
  destruct (arg_list_presets args).
  { left. unfold trace_of; simpl. apply Forall_app. split; [exact Hv |].
    apply (emits_list_presets_loop
             (fun e => is_lint_event e = false /\ is_report_event e = false) PRESETS
             (fun _ => conj eq_refl eq_refl) (verbose_world args w)). }
  destruct (if truthy (arg_config args)
            then inr (arg_config args, verbose_world args w)
            else discover_config_location (verbose_world args w))
    as [e | [config_file w2]].
  { left. unfold trace_of; simpl. apply Forall_app. split; [exact Hv | repeat constructor]. }
  assert (Hs : Forall (fun e => is_setup_event e = true)
                 (verbose_events args ++ config_events args config_file)).
  { apply Forall_app. split; [apply verbose_events_setup | apply config_events_setup]. }
  pose proof (List.Forall_impl _ setup_quiet Hs) as Hs'.
  destruct (truthy config_file && negb (path_exists w2 (str_of config_file))).
  { left. exact Hs'. }
  destruct (load_config config_file (arg_preset args) w2) as [e | [base w3]] eqn:Hload.
  { left. unfold trace_of; simpl. apply Forall_app. split; [exact Hs' | repeat constructor]. }
  destruct (load_rules (cfg_plugins (cfg_read w3 base)) w3) as [e | [[] w4]] eqn:Hrules.
  { left. unfold trace_of; simpl. apply Forall_app. split; [exact Hs' | repeat constructor]. }
  unfold command.
  destruct (arg_list_rules args).
  { left. unfold trace_of at 1; simpl. apply Forall_app. split; [exact Hs' |].
    constructor; [split; reflexivity |]. constructor; [split; reflexivity |].
    apply (List.Forall_impl _ introspection_quiet), emits_list_rules. }
  destruct (truthy (arg_show_rule args)).
  { left. unfold trace_of at 1; simpl. apply Forall_app. split; [exact Hs' |].
    constructor; [split; reflexivity |]. constructor; [split; reflexivity |].
    apply (List.Forall_impl _ introspection_quiet), emits_show_rule. }
  right. exists config_file, w2, base, w3, w4.
  split; [reflexivity |]. split; [exact Hload |]. split; [exact Hrules |]. reflexivity.
Qed.

(** The reporter is called at the end of the lint phase only, on the
    list the loop over the collected files returned. *)
Lemma lint_phase_report base paths w rep issues :
  In (EvReport rep issues) (trace_of (lint_phase base paths w)) ->
  exists files tc w5 tl,
    collect_files paths w = (Returned files, w, tc) /\
    lint_loop base files [] w = (Returned issues, w5, tl) /\
    rep = cfg_reporter (cfg_read w5 base) /\
    lint_phase base paths w =
      match report rep issues w5 with
      | inl e => (Uncaught e, w5, tc ++ tl ++ [EvReport rep issues])
      | inr (_, w6) =>
          (if nonempty issues then SystemExit (ExitCode 1) else Returned tt,
           w6, tc ++ tl ++ [EvReport rep issues])
      end.
Proof.
  rewrite lint_phase_run. unfold collect_files. intros Hin.
  pose proof (emits_collect_files_loop paths [] w) as Hc.
  pose proof (collect_files_loop_world paths [] w) as Hw.
  destruct (collect_files_loop paths [] w) as [[[files | x | e] w'] tc]
    eqn:Hcollect;
    unfold trace_of, world_of in Hc, Hw; simpl in Hc, Hw; subst w'.
  2, 3: exfalso; exact (in_all_false is_collect_event _ _ Hc Hin eq_refl).
  pose proof (emits_lint_loop base files [] w) as Hl.
  destruct (lint_loop base files [] w) as [[[found | x | e] w5] tl] eqn:Hloop;
    unfold trace_of in Hl; simpl in Hl.
  2, 3: exfalso; unfold trace_of in Hin; simpl in Hin;
    apply in_app_or in Hin as [Hin | Hin];
    [ exact (in_all_false is_collect_event _ _ Hc Hin eq_refl)
    | exact (in_all_false is_lint_event _ _ Hl Hin eq_refl) ].
  assert (Hrep : rep = cfg_reporter (cfg_read w5 base) /\ issues = found).
  { cbv zeta in Hin.
    destruct (report (cfg_reporter (cfg_read w5 base)) found w5) as [e | [[] w6]];
      unfold trace_of in Hin; simpl in Hin;
      apply in_app_or in Hin as [Hin | Hin];
      try (exfalso; exact (in_all_false is_collect_event _ _ Hc Hin eq_refl));
      apply in_app_or in Hin as [Hin | [Hin | []]];
      try (exfalso; exact (in_all_false is_lint_event _ _ Hl Hin eq_refl));
      inversion Hin; subst; split; reflexivity. }
  destruct Hrep as [-> ->].
  exists files, tc, w5, tl.
  split; [reflexivity |]. split; [exact Hloop |]. split; [reflexivity |].
  cbv zeta.
  destruct (report (cfg_reporter (cfg_read w5 base)) found w5) as [e | [[] w6]];
    reflexivity.
Qed.

(** ** The registry through the loop *)

Lemma lint_file_keeps_registry base f w :
  apply_file_config_keeps_registry -> check_file_keeps_registry ->
  registry (world_of (lint_file base f w)) = registry w.
Proof.
  intros Ha Hc. rewrite lint_file_run.
  destruct (apply_file_config base f w) as [e | [fc w1]] eqn:Happ; [reflexivity |].
  destruct (check_file fc f w1) as [e | [found w2]] eqn:Hchk; unfold world_of; simpl.
  - exact (Ha _ _ _ _ _ Happ).
  - rewrite (Hc _ _ _ _ _ Hchk). exact (Ha _ _ _ _ _ Happ).
Qed.

Lemma lint_loop_keeps_registry base files issues w :
  apply_file_config_keeps_registry -> check_file_keeps_registry ->
  registry (world_of (lint_loop base files issues w)) = registry w.
Proof.
  intros Ha Hc. revert issues w.
  induction files as [| f files IH]; intros issues w; [reflexivity |].
  simpl. unfold bind.
  pose proof (lint_file_keeps_registry base f w Ha Hc) as Hf.
  destruct (lint_file base f w) as [[[found | x | e] w1] t1];
    unfold world_of in Hf; simpl in Hf; try exact Hf.
  specialize (IH (issues ++ found) w1).
  destruct (lint_loop base files (issues ++ found) w1) as [[o w2] t2].
  unfold world_of in *; simpl in *. congruence.
Qed.

Lemma lint_each_keeps_registry base files w founds w' :
  apply_file_config_keeps_registry -> check_file_keeps_registry ->
  lint_each base files w founds w' -> registry w' = registry w.
Proof.
  intros Ha Hc. induction 1 as [| f rest w found w1 t founds w2 Hf _ IH]; [reflexivity |].
  rewrite IH. pose proof (lint_file_keeps_registry base f w Ha Hc) as Hk.
  rewrite Hf in Hk. exact Hk.
Qed.

Lemma lint_phase_keeps_registry base paths w :
  apply_file_config_keeps_registry -> check_file_keeps_registry ->
  report_keeps_registry ->
  registry (world_of (lint_phase base paths w)) = registry w.
Proof.
  intros Ha Hc Hr. rewrite lint_phase_run.
  destruct (collect_files paths w) as [[[files | x | e] w'] tc]; try reflexivity.
  pose proof (lint_loop_keeps_registry base files [] w Ha Hc) as Hl.
  destruct (lint_loop base files [] w) as [[[found | x | e] w5] tl];
    unfold world_of in Hl; simpl in Hl; try exact Hl.
  cbv zeta.
  destruct (report (cfg_reporter (cfg_read w5 base)) found w5) as [e | [[] w6]] eqn:Hrep;
    unfold world_of; simpl; [exact Hl |].
  rewrite (Hr _ _ _ _ _ Hrep). exact Hl.
Qed.

End Runs.




(** ** The pattern built from a plain directory *)






(** * The claims *)

Section Claims.
Context {E : Env}.

(** C1, as amended.  A run that hands the aggregate issue list to the
    reporter went through the lint phase: the list is the one the loop
    over the collected files returned.  Its exit status is 1 when the
    list is non-empty, whatever the issues are and whatever the reporter
    does; when the list is empty the status is 0 if [reporter.report]
    returns and 1 if it raises.  So, when the reporter returns, the
    status is 1 for a non-empty list and 0 for an empty one. *)
Theorem exit_status_reflects_issues args w rep issues :
  In (EvReport rep issues) (trace_of (main args w)) ->
  exists cf w2 base w3 w4 files w5 t,
    reaches_lint_phase args w cf w2 base w3 w4 /\
    outcome_of (collect_files (arg_PATHS args) w4) = Returned files /\
    lint_loop base files [] w4 = (Returned issues, w5, t) /\
    rep = cfg_reporter (cfg_read w5 base) /\
    exit_status (outcome_of (main args w)) =
      (if nonempty issues then 1
       else match report rep issues w5 with inl _ => 1 | inr _ => 0 end) /\
    (forall u w6, report rep issues w5 = inr (u, w6) ->
       outcome_of (main args w) =
         (if nonempty issues then SystemExit (ExitCode 1) else Returned tt) /\
       exit_status (outcome_of (main args w)) = (if nonempty issues then 1 else 0)) /\
    (forall e, report rep issues w5 = inl e ->
       outcome_of (main args w) = Uncaught e /\
       exit_status (outcome_of (main args w)) = 1).
Proof.
  intros Hin.
  destruct (main_lint_run args w)
    as [Hno | (cf & w2 & base & w3 & w4 & Hreach)].
  { exfalso. rewrite List.Forall_forall in Hno.
    destruct (Hno _ Hin) as [_ Hr]. discriminate Hr. }
  pose proof Hreach as (_ & _ & _ & Hmain).
  pose proof (Forall_app_2 _ _ _ (verbose_events_setup args) (config_events_setup args cf))
    as Hs.
  assert (Hin' : In (EvReport rep issues) (trace_of (lint_phase base (arg_PATHS args) w4))).
  { rewrite Hmain in Hin. unfold trace_of at 1 in Hin; simpl in Hin.
    apply in_app_or in Hin as [Hin | [Hin | [Hin | Hin]]]; try discriminate; [| exact Hin].
    exfalso. exact (in_all_false is_setup_event _ _ Hs Hin eq_refl). }
  destruct (lint_phase_report base (arg_PATHS args) w4 rep issues Hin')
    as (files & tc & w5 & tl & Hcollect & Hloop & Hrep & Hphase).
  assert (Hout : outcome_of (main args w) = outcome_of (lint_phase base (arg_PATHS args) w4)).
  { rewrite Hmain. reflexivity. }
  exists cf, w2, base, w3, w4, files, w5, tl.
  split; [exact Hreach |].
  split; [rewrite Hcollect; reflexivity |].
  split; [exact Hloop |]. split; [exact Hrep |].
  rewrite Hout, Hphase.
  destruct (report rep issues w5) as [e | [u w6]].
  - split; [destruct issues; reflexivity |].
    split; [intros u w6 Heq; discriminate Heq |].
    intros e' Heq. inversion Heq; subst. split; reflexivity.
  - split; [destruct issues; reflexivity |].
    split; [| intros e' Heq; discriminate Heq].
    intros _ _ _. split; [reflexivity | destruct issues; reflexivity].
Qed.

(** C2.  For every base configuration and every list of files, the loop
    of [main] returns a list exactly when every call of [lint_file]
    returns, made once per file in the order of the files; the list is
    then the concatenation, in that order, of what the calls returned. *)
Theorem lint_loop_concatenates base files w issues w' :
  (exists t, lint_loop base files [] w = (Returned issues, w', t)) <->
  (exists founds,
     lint_each base files w founds w' /\
     length founds = length files /\
     issues = concat founds).
Proof.
  split.
  - intros (t & Hrun).
    destruct (lint_loop_returned _ _ _ _ _ _ _ Hrun) as (founds & Heach & ->).
    exists founds. split; [exact Heach |]. split; [| reflexivity].
    eapply lint_each_length. exact Heach.
  - intros (founds & Heach & _ & ->).
    destruct (lint_each_loop _ _ _ _ _ [] Heach) as (t & Hrun).
    exists t. exact Hrun.
Qed.

(** C3, as amended.  When [--list-presets] is not given: if [--config]
    names a (non-empty) path that does not exist, the run exits with
    status 1 right after that check, before anything is loaded,
    collected or linted; if no (or an empty) [--config] is given and the
    discovery finds nothing, the run goes on to [load_config] with no
    configuration file and the preset of the command line. *)
Theorem missing_config_exits args w :
  arg_list_presets args = false ->
  (truthy (arg_config args) = true ->
   path_exists (verbose_world args w) (str_of (arg_config args)) = false ->
   main args w =
     (SystemExit (ExitMsg (str_of (arg_config args) +:+ ": no such file or directory")),
      verbose_world args w,
      verbose_events args ++ [EvConfigExists (str_of (arg_config args))]) /\
   exit_status (outcome_of (main args w)) = 1) /\
  (truthy (arg_config args) = false ->
   forall found w2,
     discover_config_location (verbose_world args w) = inr (found, w2) ->
     truthy found = false ->
     exists rest,
       trace_of (main args w) =
         verbose_events args
         ++ [EvDiscoverConfig; EvLoadConfig found (arg_preset args)] ++ rest).
Proof.
  intros Hlp. rewrite main_run. cbv zeta. rewrite Hlp. split.
  - intros Hcfg Hmissing. rewrite Hcfg. rewrite Hcfg, Hmissing. simpl.
    unfold config_events. rewrite Hcfg. simpl. split; reflexivity.
  - intros Hcfg found w2 Hdisc Hfound. rewrite Hcfg, Hdisc, Hfound. simpl.
    unfold config_events. rewrite Hcfg, Hfound. simpl.
    destruct (load_config found (arg_preset args) w2) as [e | [base w3]].
    + exists []. unfold trace_of; simpl. rewrite <- app_assoc. reflexivity.
    + destruct (load_rules (cfg_plugins (cfg_read w3 base)) w3) as [e | [[] w4]].
      * exists [EvLoadRules (cfg_plugins (cfg_read w3 base))].
        unfold trace_of; simpl. rewrite <- app_assoc. reflexivity.
      * exists (EvLoadRules (cfg_plugins (cfg_read w3 base))
                :: trace_of (command args base w4)).
        unfold trace_of at 1; simpl. rewrite <- app_assoc. reflexivity.
Qed.

(** C4, as amended.  In every run the base configuration is resolved
    first and the registry is loaded next, from the plugin paths of that
    configuration; per-file processing comes after both.  Up to any
    loading of the registry and up to any per-file event, the run reads:
    setup events, [load_config], [load_rules], then work. *)
Theorem rules_loaded_after_config args w pre e post :
  trace_of (main args w) = pre ++ e :: post ->
  is_load_rules e = true \/ is_file_event e = true ->
  exists s cf w2 base w3 k,
    load_config cf (arg_preset args) w2 = inr (base, w3) /\
    Forall (fun x => is_setup_event x = true) s /\
    Forall (fun x => is_work_event x = true) k /\
    pre ++ [e] =
      s ++ [EvLoadConfig cf (arg_preset args);
            EvLoadRules (cfg_plugins (cfg_read w3 base))] ++ k.
Proof.
  intros Hsplit [He | He].
  - destruct (main_trace_at_load_rules _ _ _ _ _ Hsplit He)
      as (s & cf & w2 & base & w3 & Hload & Hs & _ & -> & ->).
    exists s, cf, w2, base, w3, []. repeat split; try assumption; [constructor |].
    rewrite <- app_assoc. reflexivity.
  - assert (Hw : is_work_event e = true)
      by (destruct e; try discriminate He; reflexivity).
    destruct (main_trace_at_work _ _ _ _ _ Hsplit)
      as (s & cf & w2 & base & w3 & k & Hload & Hs & Hk & _ & ->);
      try (destruct e; try discriminate He; reflexivity).
    exists s, cf, w2, base, w3, (k ++ [e]). repeat split; try assumption.
    + apply Forall_app. split; [exact Hk | repeat constructor; exact Hw].
    + rewrite <- !app_assoc. reflexivity.
Qed.

(** C5.  In every run [rule.load_rules] is called at most once.  When
    a file is linted, it was called exactly once before, on the plugin
    paths of the base configuration, and is not called again; the run is
    then the lint phase started in the world [w4] that call left.  With
    the collaborators of the loop and the reporter leaving the registry
    alone, as the specification has it, the registry is the one of [w4]
    in every world in which a collected file is linted (before and after
    its configuration is derived, and after it is checked) and in the
    world the run ends in: nothing is registered while or after files
    are linted. *)
Theorem rules_loaded_once_before_linting args w :
  (count_events is_load_rules (trace_of (main args w)) <= 1)%nat /\
  forall pre e post,
    trace_of (main args w) = pre ++ e :: post ->
    is_lint_event e = true ->
    count_events is_load_rules pre = 1%nat /\
    count_events is_load_rules (e :: post) = 0%nat /\
    count_events is_load_rules (trace_of (main args w)) = 1%nat /\
    exists cf w2 base w3 w4,
      reaches_lint_phase args w cf w2 base w3 w4 /\
      (apply_file_config_keeps_registry ->
       check_file_keeps_registry ->
       (forall files done f rest founds wd,
          outcome_of (collect_files (arg_PATHS args) w4) = Returned files ->
          files = done ++ f :: rest ->
          lint_each base done w4 founds wd ->
          registry wd = registry w4 /\
          forall file_config wa,
            apply_file_config base f wd = inr (file_config, wa) ->
            registry wa = registry w4 /\
            forall found wc,
              check_file file_config f wa = inr (found, wc) ->
              registry wc = registry w4) /\
       (report_keeps_registry ->
        registry (world_of (main args w)) = registry w4)).
Proof.
  split.
  - destruct (main_shape args w)
      as (s & Hs & [-> | [(cf & ->) | (cf & w2 & base & w3 & k & _ & Hk & ->)]]);
      rewrite ?count_events_app;
      rewrite (count_events_none _ _ s setup_not_load_rules Hs);
      try rewrite (count_events_none _ _ k work_not_load_rules Hk);
      unfold count_events; simpl; lia.
  - intros pre e post Hsplit He.
    destruct (main_trace_at_work _ _ _ _ _ Hsplit)
      as (s & cf & w2 & base & w3 & k & Hload & Hs & Hk & Hpost & Hpre);
      try (destruct e; try discriminate He; reflexivity).
    assert (Hbefore : count_events is_load_rules pre = 1%nat).
    { rewrite Hpre, !count_events_app.
      rewrite (count_events_none _ _ s setup_not_load_rules Hs).
      rewrite (count_events_none _ _ k work_not_load_rules Hk).
      reflexivity. }
    assert (Hafter : count_events is_load_rules (e :: post) = 0%nat).
    { apply (count_events_none _ is_work_event); [apply work_not_load_rules |].
      constructor; [apply lint_is_work, He | exact Hpost]. }
    split; [exact Hbefore |]. split; [exact Hafter |].
    split; [rewrite Hsplit, count_events_app, Hbefore, Hafter; reflexivity |].
    clear s cf w2 base w3 k Hload Hs Hk Hpost Hpre Hbefore Hafter.
    destruct (main_lint_run args w)
      as [Hno | (cf & w2 & base & w3 & w4 & Hreach)].
    { exfalso. rewrite List.Forall_forall in Hno.
      assert (Hin : In e (trace_of (main args w)))
        by (rewrite Hsplit; apply in_elt).
      destruct (Hno _ Hin) as [Hl _]. congruence. }
    exists cf, w2, base, w3, w4. split; [exact Hreach |].
    intros Ha Hc. split.
    + intros files done f rest founds wd _ _ Heach.
      pose proof (lint_each_keeps_registry _ _ _ _ _ Ha Hc Heach) as Hwd.
      split; [exact Hwd |].
      intros fc wa Happ.
      pose proof (Ha _ _ _ _ _ Happ) as Hwa.
      split; [congruence |].
      intros found wc Hchk.
      pose proof (Hc _ _ _ _ _ Hchk). congruence.
    + intros Hr. destruct Hreach as (_ & _ & _ & Hmain).
      rewrite Hmain. unfold world_of at 1; simpl.
      apply lint_phase_keeps_registry; assumption.
Qed.

(** C6.  If the expansion of some path of the list does not exist,
    [collect_files] exits with the message of the first such path, that
    is with status 1; only the paths up to it were looked at and no file
    was linted; the end of [main] that starts with the collection exits
    the same way, so nothing after the collection runs. *)
Theorem collect_files_missing_path_exits paths w :
  Exists (fun p => path_exists w (expanduser w p) = false) paths ->
  exists ok p rest,
    paths = ok ++ p :: rest /\
    Forall (fun q => path_exists w (expanduser w q) = true) ok /\
    path_exists w (expanduser w p) = false /\
    collect_files paths w =
      (SystemExit (ExitMsg (expanduser w p +:+ ": no such file or directory")), w,
       flat_map (collect_events w) ok ++ [EvCollectPath (expanduser w p)]) /\
    exit_status (outcome_of (collect_files paths w)) = 1 /\
    Forall (fun e => is_lint_event e = false) (trace_of (collect_files paths w)) /\
    forall base,
      lint_phase base paths w =
        (SystemExit (ExitMsg (expanduser w p +:+ ": no such file or directory")), w,
         flat_map (collect_events w) ok ++ [EvCollectPath (expanduser w p)]).
Proof.
  intros Hmissing.
  destruct (first_missing w paths Hmissing) as (ok & p & rest & -> & Hok & Hp).
  exists ok, p, rest.
  pose proof (collect_files_loop_first_missing ok p rest [] w Hok Hp) as Hrun.
  split; [reflexivity |]. split; [exact Hok |]. split; [exact Hp |].
  split; [exact Hrun |].
  split; [unfold collect_files; rewrite Hrun; reflexivity |].
  split.
  - apply (List.Forall_impl _ collect_not_lint).
    apply (emits_collect_files_loop (ok ++ p :: rest) [] w).
  - intros base. rewrite lint_phase_run. unfold collect_files. rewrite Hrun.
    reflexivity.
Qed.



(** C9.  Asking [show_rule] for a name the registry does not hold exits
    with the message [Unknown rule: <name>], that is with status 1;
    nothing is printed, and nothing that follows [show_rule] runs.  This
    is what [main] does with [--show-rule <name>] once the rules are
    loaded, unless [--list-rules] is given too. *)
Theorem show_rule_unknown_exits name w :
  registry w !! name = None ->
  show_rule name w =
    (SystemExit (ExitMsg (BRIGHT +:+ "Unknown rule:" +:+ RESET_ALL +:+ " " +:+ name)),
     w, [EvGetMeta name]) /\
  exit_status (outcome_of (show_rule name w)) = 1 /\
  (forall B (k : unit -> M B),
     bind (show_rule name) k w =
       (SystemExit (ExitMsg (BRIGHT +:+ "Unknown rule:" +:+ RESET_ALL +:+ " " +:+ name)),
        w, [EvGetMeta name])) /\
  (forall args base,
     arg_list_rules args = false ->
     arg_show_rule args = Some name ->
     name <> "" ->
     command args base w =
       (SystemExit (ExitMsg (BRIGHT +:+ "Unknown rule:" +:+ RESET_ALL +:+ " " +:+ name)),
        w, [EvGetMeta name])).
Proof.
  intros Hnone.
  assert (Hrun : show_rule name w =
    (SystemExit (ExitMsg (BRIGHT +:+ "Unknown rule:" +:+ RESET_ALL +:+ " " +:+ name)),
     w, [EvGetMeta name])).
  { rewrite show_rule_run, Hnone. reflexivity. }
  split; [exact Hrun |]. split; [rewrite Hrun; reflexivity |]. split.
  - intros B k. apply bind_exit. exact Hrun.
  - intros args base Hlist Hshow Hname. unfold command.
    rewrite Hlist, Hshow. simpl.
    destruct (String.eqb name "") eqn:Heq.
    + apply String.eqb_eq in Heq. contradiction.
    + simpl. exact Hrun.
Qed.

(** C10.  With [--list-presets], and every preset of the table holding a
    [config], [main] prints the presets and returns; the status is 0.
    Apart from the logger level set by [--verbose], the printed lines
    are all the run does: no configuration is looked for or loaded, no
    rule is loaded, no path is looked at, whatever [--config] and
    [PATHS] are. *)
Theorem list_presets_returns_first args w :
  arg_list_presets args = true ->
  presets_have_config ->
  main args w =
    (Returned tt, verbose_world args w,
     verbose_events args ++ map EvPrint (flat_map preset_lines PRESETS)) /\
  exit_status (outcome_of (main args w)) = 0.
Proof.
  intros Hlp Hcfg.
  assert (Hrun : main args w =
    (Returned tt, verbose_world args w,
     verbose_events args ++ map EvPrint (flat_map preset_lines PRESETS))).
  { rewrite main_run. cbv zeta. rewrite Hlp. unfold list_presets.
    rewrite (list_presets_loop_run PRESETS (verbose_world args w) Hcfg). reflexivity. }
  split; [exact Hrun | rewrite Hrun; reflexivity].
Qed.

End Claims.

(** * Further properties *)

(** ** The order of the rule names *)

Lemma ascii_compare_refl c : Ascii.compare c c = Eq.
Proof. unfold Ascii.compare. apply N.compare_refl. Qed.

Lemma string_compare_refl s : String.compare s s = Eq.
Proof.
  induction s as [| c s IH]; simpl; [reflexivity |].
  rewrite ascii_compare_refl. exact IH.
Qed.

Lemma string_compare_lt_trans a b c :
  String.compare a b = Lt -> String.compare b c = Lt -> String.compare a c = Lt.
Proof.
  revert b c. induction a as [| x a IH]; intros [| y b] [| z c]; simpl;
    try discriminate; try reflexivity.
  unfold Ascii.compare.
  destruct (N.compare_spec (N_of_ascii x) (N_of_ascii y)) as [Hxy | Hxy | Hxy];
    try discriminate;
    destruct (N.compare_spec (N_of_ascii y) (N_of_ascii z)) as [Hyz | Hyz | Hyz];
    try discriminate; intros Hab Hbc.
  - rewrite Hxy, Hyz, N.compare_refl. eapply IH; eassumption.
  - rewrite Hxy. apply N.compare_lt_iff in Hyz. rewrite Hyz. reflexivity.
  - rewrite <- Hyz. apply N.compare_lt_iff in Hxy. rewrite Hxy. reflexivity.
  - assert (Hxz : (N_of_ascii x < N_of_ascii z)%N) by (eapply N.lt_trans; eassumption).
    apply N.compare_lt_iff in Hxz. rewrite Hxz. reflexivity.
Qed.

Lemma string_leb_ltb a b : String.leb a b = negb (String.ltb b a).
Proof.
  unfold String.leb, String.ltb. rewrite (String.compare_antisym b a).
  destruct (String.compare a b); reflexivity.
Qed.

Lemma string_ltb_leb a b : String.ltb a b = true -> String.leb a b = true.
Proof.
  unfold String.leb, String.ltb. destruct (String.compare a b); congruence.
Qed.

Lemma string_leb_trans a b c :
  String.leb a b = true -> String.leb b c = true -> String.leb a c = true.
Proof.
  unfold String.leb.
  destruct (String.compare a b) eqn:Hab; try discriminate;
    destruct (String.compare b c) eqn:Hbc; try discriminate; intros _ _.
  - apply String.compare_eq_iff in Hab, Hbc. subst. rewrite string_compare_refl. reflexivity.
  - apply String.compare_eq_iff in Hab. subst. rewrite Hbc. reflexivity.
  - apply String.compare_eq_iff in Hbc. subst. rewrite Hab. reflexivity.
  - rewrite (string_compare_lt_trans _ _ _ Hab Hbc). reflexivity.
Qed.

Lemma name_le_trans m1 m2 m3 : name_le m1 m2 -> name_le m2 m3 -> name_le m1 m3.
Proof. unfold name_le. apply string_leb_trans. Qed.

(** ** [sorted(..., key=lambda r: r['name'])] *)

Lemma insert_by_name_perm m l : Permutation (m :: l) (insert_by_name m l).
Proof.
  induction l as [| x l IH]; simpl; [reflexivity |].
  destruct (String.ltb (meta_name m) (meta_name x)); [reflexivity |].
  rewrite perm_swap. apply perm_skip. exact IH.
Qed.

Lemma insert_by_name_sorted m l :
  StronglySorted name_le l -> StronglySorted name_le (insert_by_name m l).
Proof.
  induction 1 as [| x l Hl IH Hx]; simpl.
  - repeat constructor.
  - destruct (String.ltb (meta_name m) (meta_name x)) eqn:Hlt.
    + assert (Hmx : name_le m x) by (apply string_ltb_leb; exact Hlt).
      constructor; [constructor; assumption |].
      constructor; [exact Hmx |].
      apply (List.Forall_impl _ (fun y Hy => name_le_trans _ _ _ Hmx Hy) Hx).
    + assert (Hxm : name_le x m).
      { unfold name_le. rewrite string_leb_ltb, Hlt. reflexivity. }
      constructor; [exact IH |].
      apply (Permutation_Forall (insert_by_name_perm m l)).
      constructor; assumption.
Qed.

(** A rule goes behind the rules of the same name that are already
    there. *)
Lemma insert_by_name_named n m l :
  StronglySorted name_le l ->
  named n (insert_by_name m l) = named n l ++ named n [m].
Proof.
  induction 1 as [| x l Hl IH Hx]; simpl; [reflexivity |].
  destruct (String.ltb (meta_name m) (meta_name x)) eqn:Hlt.
  - unfold named. simpl.
    destruct (String.eqb (meta_name m) n) eqn:Hmn; simpl;
      [| rewrite app_nil_r; reflexivity].
    apply String.eqb_eq in Hmn. subst n.
    assert (Hnone : forall y, name_le x y -> String.eqb (meta_name y) (meta_name m) = false).
    { intros y Hxy. apply String.eqb_neq. intros Heq.
      unfold name_le in Hxy. rewrite Heq, string_leb_ltb, Hlt in Hxy. discriminate. }
    assert (Hx' : String.eqb (meta_name x) (meta_name m) = false).
    { apply Hnone. unfold name_le, String.leb. rewrite string_compare_refl. reflexivity. }
    assert (Hl' : List.filter (fun y => String.eqb (meta_name y) (meta_name m)) l = []).
    { clear -Hx Hnone. induction Hx as [| y l Hy Hx IH]; simpl; [reflexivity |].
      rewrite (Hnone y Hy). exact IH. }
    rewrite Hx', Hl'. reflexivity.
  - unfold named in *. simpl.
    destruct (String.eqb (meta_name x) n); simpl; rewrite IH; reflexivity.
Qed.

Lemma fold_insert_by_name l acc :
  StronglySorted name_le acc ->
  Permutation (acc ++ l) (fold_left (fun a m => insert_by_name m a) l acc) /\
  StronglySorted name_le (fold_left (fun a m => insert_by_name m a) l acc) /\
  forall n, named n (fold_left (fun a m => insert_by_name m a) l acc)
            = named n acc ++ named n l.
Proof.
  revert acc. induction l as [| m l IH]; intros acc Hacc; simpl.
  - rewrite app_nil_r. split; [reflexivity |]. split; [assumption |].
    intros n. unfold named. simpl. rewrite app_nil_r. reflexivity.
  - destruct (IH (insert_by_name m acc) (insert_by_name_sorted m acc Hacc))
      as (Hperm & Hsorted & Hnamed).
    split; [| split; [exact Hsorted |]].
    + rewrite <- Hperm. rewrite <- (insert_by_name_perm m acc).
      symmetry. apply Permutation_middle.
    + intros n. rewrite Hnamed, (insert_by_name_named n m acc Hacc).
      rewrite <- app_assoc. f_equal. unfold named. simpl.
      destruct (String.eqb (meta_name m) n); reflexivity.
Qed.

(** X1.  The list [list_rules] prints from holds the same rules as the
    registry gave, in nondecreasing order of their names, and rules of
    the same name keep the order they came in (the sort is stable). *)
Theorem sorted_by_name_stable_sort (l : list Meta) :
  Permutation l (sorted_by_name l) /\
  StronglySorted name_le (sorted_by_name l) /\
  forall n, named n (sorted_by_name l) = named n l.
Proof.
  destruct (fold_insert_by_name l [] (SSorted_nil _)) as (Hperm & Hsorted & Hnamed).
  split; [exact Hperm |]. split; [exact Hsorted | exact Hnamed].
Qed.

Section Further.
Context {E : Env}.

(** ** The monad, once more *)

Lemma bind_assoc {A B C} (m : M A) (f : A -> M B) (g : B -> M C) w :
  bind (bind m f) g w = bind m (fun a => bind (f a) g) w.
Proof.
  unfold bind.
  destruct (m w) as [[[a | x | e] w1] t1]; try reflexivity.
  destruct (f a w1) as [[[b | x | e] w2] t2]; try reflexivity.
  destruct (g b w2) as [[o w3] t3]. rewrite app_assoc. reflexivity.
Qed.

Lemma bind_ext {A B} (m : M A) (k1 k2 : A -> M B) w :
  (forall a w', k1 a w' = k2 a w') -> bind m k1 w = bind m k2 w.
Proof.
  intros Hk. unfold bind.
  destruct (m w) as [[[a | x | e] w1] t1]; try reflexivity.
  rewrite Hk. reflexivity.
Qed.

Lemma bind_ret_l {A B} (a : A) (k : A -> M B) w : bind (ret a) k w = k a w.
Proof.
  unfold bind, ret. destruct (k a w) as [[o w1] t1]. reflexivity.
Qed.

(** ** [list_rules] *)

Lemma list_rules_loop_run metas w :
  list_rules_loop metas w = (Returned tt, w, map EvPrint (map rule_line metas)).
Proof.
  induction metas as [| meta rest IH]; simpl; [reflexivity |].
  unfold bind, print. rewrite IH. reflexivity.
Qed.

(** X2.  [list_rules] prints one line per rule of the registry, in
    nondecreasing order of the names, then returns; it leaves the world
    as it was. *)
Theorem list_rules_prints_every_rule w :
  exists metas,
    Permutation (map_to_list (registry w)).*2 metas /\
    StronglySorted name_le metas /\
    length metas = size (registry w) /\
    list_rules w = (Returned tt, w, EvRegistryAll :: map EvPrint (map rule_line metas)).
Proof.
  exists (sorted_by_name (map_to_list (registry w)).*2).
  destruct (fold_insert_by_name (map_to_list (registry w)).*2 [] (SSorted_nil _))
    as (Hperm & Hsorted & _).
  fold (sorted_by_name (map_to_list (registry w)).*2) in Hperm, Hsorted.
  simpl in Hperm.
  split; [exact Hperm |]. split; [exact Hsorted |]. split.
  - rewrite <- (Permutation_length Hperm), length_fmap. apply length_map_to_list.
  - unfold list_rules, registry_all, bind, query.
    rewrite list_rules_loop_run. reflexivity.
Qed.

(** ** What a run goes through *)

(** A property of events holds all along a run when it holds of each
    event the run can meet on its way. *)
Lemma main_trace_forall (P : Event -> Prop) args w :
  (forall level, P (EvSetLevel level)) ->
  (arg_list_presets args = true -> forall text, P (EvPrint text)) ->
  (arg_list_presets args = false -> truthy (arg_config args) = false ->
   P EvDiscoverConfig) ->
  (arg_list_presets args = false -> forall c, P (EvConfigExists c)) ->
  (arg_list_presets args = false -> forall c p, P (EvLoadConfig c p)) ->
  (arg_list_presets args = false -> forall pl, P (EvLoadRules pl)) ->
  (arg_list_presets args = false -> forall base, emits P (command args base)) ->
  Forall P (trace_of (main args w)).
Proof.
  intros Hlevel Hprint Hdisc Hexists Hload Hrules Hcommand.
  rewrite main_run. cbv zeta.
  assert (Hv : Forall P (verbose_events args)).
  { unfold verbose_events. destruct (arg_verbose args); repeat constructor. apply Hlevel. }
  destruct (arg_list_presets args) eqn:Hlp.
  { unfold trace_of; simpl. apply Forall_app. split; [exact Hv |].
    apply (emits_list_presets_loop P PRESETS (Hprint eq_refl) (verbose_world args w)). }
  specialize (Hdisc eq_refl). specialize (Hexists eq_refl). specialize (Hload eq_refl).
  specialize (Hrules eq_refl). specialize (Hcommand eq_refl).
  destruct (if truthy (arg_config args)
            then inr (arg_config args, verbose_world args w)
            else discover_config_location (verbose_world args w))
    as [e | [config_file w2]] eqn:Hcf.
  { unfold trace_of; simpl. apply Forall_app. split; [exact Hv |].
    repeat constructor. apply Hdisc.
    destruct (truthy (arg_config args)); [discriminate Hcf | reflexivity]. }
  assert (Hs : Forall P (verbose_events args ++ config_events args config_file)).
  { apply Forall_app. split; [exact Hv |]. unfold config_events.
    destruct (truthy (arg_config args)), (truthy config_file);
      repeat constructor; auto. }
  destruct (truthy config_file && negb (path_exists w2 (str_of config_file))).
  { exact Hs. }
  destruct (load_config config_file (arg_preset args) w2) as [e | [base w3]].
  { unfold trace_of; simpl. apply Forall_app. split; [exact Hs |].
    repeat constructor. apply Hload. }
  destruct (load_rules (cfg_plugins (cfg_read w3 base)) w3) as [e | [[] w4]].
  { unfold trace_of; simpl. apply Forall_app. split; [exact Hs |].
    repeat constructor; [apply Hload | apply Hrules]. }
  unfold trace_of at 1; simpl. apply Forall_app. split; [exact Hs |].
  constructor; [apply Hload |]. constructor; [apply Hrules |]. apply Hcommand.
Qed.

Lemma emits_list_rules_of (P : Event -> Prop) :
  P EvRegistryAll -> (forall text, P (EvPrint text)) -> emits P list_rules.
Proof.
  intros Hall Hprint. unfold list_rules, registry_all.
  apply emits_bind; [apply emits_query; exact Hall |]. intros metas.
  apply emits_list_rules_loop. exact Hprint.
Qed.

Lemma emits_show_rule_of (P : Event -> Prop) name :
  P (EvGetMeta name) -> (forall text, P (EvPrint text)) -> emits P (show_rule name).
Proof.
  intros Hget Hprint w. rewrite show_rule_run.
  destruct (registry w !! name); repeat constructor; auto.
Qed.

(** X3.  With [--list-presets], [--list-rules] or [--show-rule], no
    path is looked at, no file is linted and the reporter is not called:
    [PATHS] is ignored. *)
Theorem introspection_ignores_paths args w :
  arg_list_presets args = true \/ arg_list_rules args = true \/
  truthy (arg_show_rule args) = true ->
  Forall (fun e => is_file_event e = false /\ is_report_event e = false)
         (trace_of (main args w)).
Proof.
  intros Hflag.
  apply main_trace_forall; try (intros; split; reflexivity).
  intros Hlp base. unfold command.
  destruct (arg_list_rules args) eqn:Hlr.
  { apply emits_list_rules_of; intros; split; reflexivity. }
  destruct (truthy (arg_show_rule args)) eqn:Hsr.
  { apply emits_show_rule_of; intros; split; reflexivity. }
  exfalso. destruct Hflag as [H | [H | H]]; congruence.
Qed.

(** X4.  [--list-rules] wins over [--show-rule]: when both are given
    the registry is listed and no rule is looked up. *)
Theorem list_rules_wins_over_show_rule args w :
  arg_list_rules args = true ->
  Forall (fun e => is_get_meta e = false) (trace_of (main args w)) /\
  forall base w', command args base w' = list_rules w'.
Proof.
  intros Hlr. split.
  - apply main_trace_forall; try (intros; reflexivity).
    intros Hlp base. unfold command. rewrite Hlr.
    apply emits_list_rules_of; intros; reflexivity.
  - intros base w'. unfold command. rewrite Hlr. reflexivity.
Qed.

Lemma work_not_discover e : is_work_event e = true -> is_discover e = false.
Proof. destruct e; intros H; try discriminate H; reflexivity. Qed.

(** X5.  The discovery of a configuration file is a fallback: with a
    (non-empty) [--config] it is never asked; without one, and without
    [--list-presets], it is asked exactly once. *)
Theorem discovery_is_a_fallback args w :
  (truthy (arg_config args) = true ->
   count_events is_discover (trace_of (main args w)) = 0%nat) /\
  (arg_list_presets args = false -> truthy (arg_config args) = false ->
   count_events is_discover (trace_of (main args w)) = 1%nat).
Proof.
  assert (Hv : count_events is_discover (verbose_events args) = 0%nat).
  { unfold verbose_events. destruct (arg_verbose args); reflexivity. }
  assert (Hcmd : forall base w4,
            count_events is_discover (trace_of (command args base w4)) = 0%nat).
  { intros base w4.
    apply (count_events_none _ is_work_event); [apply work_not_discover |].
    apply emits_command. }
  split.
  - intros Hcfg.
    apply (count_events_none _ (fun e => negb (is_discover e))).
    { intros e He. destruct (is_discover e); [discriminate | reflexivity]. }
    apply main_trace_forall; try (intros; reflexivity); try congruence.
    + intros Hlp base.
      apply (emits_impl (fun e => is_work_event e = true)); [| apply emits_command].
      intros e He. rewrite (work_not_discover e He). reflexivity.
  - intros Hlp Hcfg. rewrite main_run. cbv zeta. rewrite Hlp, Hcfg.
    destruct (discover_config_location (verbose_world args w)) as [e | [config_file w2]].
    { unfold trace_of; simpl. rewrite count_events_app, Hv. reflexivity. }
    assert (Hs : count_events is_discover
                   (verbose_events args ++ config_events args config_file) = 1%nat).
    { rewrite count_events_app, Hv. unfold config_events. rewrite Hcfg.
      destruct (truthy config_file); reflexivity. }
    destruct (truthy config_file && negb (path_exists w2 (str_of config_file))).
    { exact Hs. }
    destruct (load_config config_file (arg_preset args) w2) as [e | [base w3]].
    { unfold trace_of; simpl. rewrite count_events_app, Hs. reflexivity. }
    destruct (load_rules (cfg_plugins (cfg_read w3 base)) w3) as [e | [[] w4]].
    { unfold trace_of; simpl. rewrite count_events_app, Hs. reflexivity. }
    unfold trace_of at 1; simpl.
    rewrite count_events_app, Hs.
    change (EvLoadConfig config_file (arg_preset args)
            :: EvLoadRules (cfg_plugins (cfg_read w3 base))
            :: trace_of (command args base w4))
      with ([EvLoadConfig config_file (arg_preset args);
             EvLoadRules (cfg_plugins (cfg_read w3 base))]
            ++ trace_of (command args base w4)).
    rewrite count_events_app, Hcmd. reflexivity.
Qed.

(** ** [show_rule] on a registered rule *)

(** X6.  For a name the registry holds, [show_rule] prints, in one call
    of [print], the name, the description and the help of that rule,
    and returns; run by [main] for [--show-rule], the status is 0. *)
Theorem show_rule_prints_registered_rule name meta w :
  registry w !! name = Some meta ->
  show_rule name w = (Returned tt, w, [EvGetMeta name; EvPrint (rule_text meta)]) /\
  forall args base,
    arg_list_rules args = false ->
    arg_show_rule args = Some name ->
    name <> "" ->
    command args base w = (Returned tt, w, [EvGetMeta name; EvPrint (rule_text meta)]) /\
    exit_status (outcome_of (command args base w)) = 0.
Proof.
  intros Hsome.
  assert (Hrun : show_rule name w =
                 (Returned tt, w, [EvGetMeta name; EvPrint (rule_text meta)])).
  { rewrite show_rule_run, Hsome. reflexivity. }
  split; [exact Hrun |].
  intros args base Hlr Hsr Hname. unfold command. rewrite Hlr, Hsr. simpl.
  destruct (String.eqb name "") eqn:Heq.
  - apply String.eqb_eq in Heq. contradiction.
  - simpl. rewrite Hrun. split; reflexivity.
Qed.

(** ** [list_presets] *)

Lemma list_presets_loop_app ok rest w :
  Forall (fun item : string * Preset PresetConfig => preset_config (snd item) <> None) ok ->
  list_presets_loop (ok ++ rest) w =
    (outcome_of (list_presets_loop rest w), world_of (list_presets_loop rest w),
     map EvPrint (flat_map preset_lines ok) ++ trace_of (list_presets_loop rest w)).
Proof.
  induction 1 as [| [name preset] ok Hcfg Hok IH]; simpl.
  - apply run_eta.
  - unfold bind, print in *; simpl in *.
    destruct (preset_config preset) as [c |]; [| congruence].
    simpl. rewrite IH. reflexivity.
Qed.

(** X7.  A preset without a [config] key stops [list_presets] with a
    [KeyError]: the presets before it are printed in full, of the
    preset itself only the title line, the presets after it not at all;
    the status is 1. *)
Theorem list_presets_stops_at_missing_config ok name preset rest w :
  PRESETS = ok ++ (name, preset) :: rest ->
  Forall (fun item : string * Preset PresetConfig => preset_config (snd item) <> None) ok ->
  preset_config preset = None ->
  list_presets w =
    (Uncaught (KeyError "config"), w,
     map EvPrint (flat_map preset_lines ok)
     ++ [EvPrint (BRIGHT +:+ name +:+ RESET_ALL +:+ " - "
                  +:+ default "" (preset_description preset))]) /\
  exit_status (outcome_of (list_presets w)) = 1.
Proof.
  intros Htable Hok Hnone.
  assert (Hrun : list_presets w =
    (Uncaught (KeyError "config"), w,
     map EvPrint (flat_map preset_lines ok)
     ++ [EvPrint (BRIGHT +:+ name +:+ RESET_ALL +:+ " - "
                  +:+ default "" (preset_description preset))])).
  { unfold list_presets. rewrite Htable, (list_presets_loop_app ok _ w Hok).
    simpl. unfold bind, print, raise. rewrite Hnone. reflexivity. }
  split; [exact Hrun | rewrite Hrun; reflexivity].
Qed.

End Further.

(** ** The indentation of a preset *)

Lemma lines_of_nonempty s : lines_of s <> [].
Proof.
  destruct s as [| c s]; simpl; [discriminate |].
  destruct (Ascii.eqb c LF); [discriminate |].
  destruct (lines_of s); discriminate.
Qed.

Lemma lines_of_left_pad s :
  lines_of (left_pad +:+ s) =
  match lines_of s with
  | l :: ls => (left_pad +:+ l) :: ls
  | [] => []
  end.
Proof.
  pose proof (lines_of_nonempty s) as Hne.
  change (left_pad +:+ s) with (String " " (String " " (String " " (String " " s)))).
  cbn [lines_of]. change (Ascii.eqb " " LF) with false. cbv iota.
  destruct (lines_of s) as [| l ls]; [congruence | reflexivity].
Qed.

(** X8.  The configuration of a preset is printed with every one of its
    lines moved four columns to the right: the lines of the printed
    text are those of [json.dumps(..., indent=4)], each behind
    [left_pad]. *)
Theorem preset_config_is_indented (s : string) :
  lines_of (left_pad +:+ replace_newlines left_pad s)
  = map (fun l => left_pad +:+ l) (lines_of s).
Proof.
  rewrite lines_of_left_pad.
  induction s as [| c s IH]; [reflexivity |].
  cbn [replace_newlines lines_of].
  destruct (Ascii.eqb c LF) eqn:Hc.
  - cbn [lines_of]. rewrite Ascii.eqb_refl.
    rewrite lines_of_left_pad.
    destruct (lines_of (replace_newlines left_pad s)) as [| l ls] eqn:Hl.
    { exfalso. exact (lines_of_nonempty _ Hl). }
    simpl. rewrite <- IH. reflexivity.
  - cbn [lines_of]. rewrite Hc.
    destruct (lines_of (replace_newlines left_pad s)) as [| l ls] eqn:Hl.
    { exfalso. exact (lines_of_nonempty _ Hl). }
    destruct (lines_of s) as [| l' ls'] eqn:Hl'.
    { exfalso. exact (lines_of_nonempty _ Hl'). }
    simpl in *. inversion IH as [[Hhead Hmap]].
    change (l = l') in Hhead. subst l'. reflexivity.
Qed.

Section Further2.
Context {E : Env}.

(** ** The options of the command line *)

(** X9.  An empty [--config] and an empty [--show-rule] count as not
    given: the run is the one without them. *)
Theorem empty_options_are_absent args w :
  main (with_config (Some "") (with_show_rule (Some "") args)) w
  = main (with_config None (with_show_rule None args)) w.
Proof. reflexivity. Qed.

(** X10.  A configuration file the discovery names must exist as well:
    without [--config], when [config.discover_config_location] returns
    a path that is not there, the run exits with status 1 on that path,
    before anything is loaded. *)
Theorem discovered_config_must_exist args w p w2 :
  arg_list_presets args = false ->
  truthy (arg_config args) = false ->
  discover_config_location (verbose_world args w) = inr (Some p, w2) ->
  p <> "" ->
  path_exists w2 p = false ->
  main args w =
    (SystemExit (ExitMsg (p +:+ ": no such file or directory")), w2,
     verbose_events args ++ [EvDiscoverConfig; EvConfigExists p]) /\
  exit_status (outcome_of (main args w)) = 1.
Proof.
  intros Hlp Hcfg Hdisc Hp Hmissing.
  assert (Htruthy : truthy (Some p) = true).
  { simpl. destruct (String.eqb p "") eqn:Heq; [| reflexivity].
    apply String.eqb_eq in Heq. contradiction. }
  assert (Hrun : main args w =
    (SystemExit (ExitMsg (p +:+ ": no such file or directory")), w2,
     verbose_events args ++ [EvDiscoverConfig; EvConfigExists p])).
  { rewrite main_run. cbv zeta. rewrite Hlp, Hcfg, Hdisc.
    unfold config_events. rewrite Hcfg, Htruthy. simpl str_of.
    rewrite Hmissing. reflexivity. }
  split; [exact Hrun | rewrite Hrun; reflexivity].
Qed.

(** X11.  [--verbose] sets the level of the logger and changes nothing
    else: the run is the run without it, started once the level is
    set. *)
Theorem verbose_only_sets_the_level args w :
  main (with_verbose true args) w =
    (outcome_of (main (with_verbose false args) (setLevel "DEBUG" w)),
     world_of (main (with_verbose false args) (setLevel "DEBUG" w)),
     EvSetLevel "DEBUG" :: trace_of (main (with_verbose false args) (setLevel "DEBUG" w))).
Proof.
  rewrite !main_run. cbv zeta. unfold verbose_world, verbose_events, command. simpl.
  destruct (arg_list_presets args); [reflexivity |].
  destruct (if truthy (arg_config args)
            then inr (arg_config args, setLevel "DEBUG" w)
            else discover_config_location (setLevel "DEBUG" w))
    as [e | [config_file w2]]; [reflexivity |].
  destruct (truthy config_file && negb (path_exists w2 (str_of config_file)));
    [reflexivity |].
  destruct (load_config config_file (arg_preset args) w2) as [e | [base w3]];
    [reflexivity |].
  destruct (load_rules (cfg_plugins (cfg_read w3 base)) w3) as [e | [[] w4]];
    reflexivity.
Qed.

(** ** The status of the process *)

Lemma ends_plainly_bind {A B} (m : M A) (k : A -> M B) :
  ends_plainly m -> (forall a, ends_plainly (k a)) -> ends_plainly (bind m k).
Proof.
  intros Hm Hk w. unfold bind. specialize (Hm w).
  destruct (m w) as [[[a | x | e] w1] t1].
  - specialize (Hk a w1). destruct (k a w1) as [[o w2] t2]. exact Hk.
  - intros n Hn. apply (Hm n). unfold outcome_of in *; simpl in *.
    inversion Hn; subst. reflexivity.
  - intros n Hn. discriminate Hn.
Qed.

Lemma exits_plainly_status {A} (o : Outcome A) :
  exits_plainly o -> exit_status o = 0 \/ exit_status o = 1.
Proof.
  intros Ho. destruct o as [a | [n | msg] | e]; simpl; auto.
  right. rewrite (Ho n eq_refl). reflexivity.
Qed.

Lemma ends_plainly_list_presets_loop items : ends_plainly (list_presets_loop items).
Proof.
  induction items as [| [name preset] rest IH]; simpl.
  - intros w n Hn. discriminate Hn.
  - apply ends_plainly_bind; [intros w n Hn; discriminate Hn |]. intros _.
    destruct (preset_config preset); [| intros w n Hn; discriminate Hn].
    apply ends_plainly_bind; [intros w n Hn; discriminate Hn |]. intros _. exact IH.
Qed.

Lemma ends_plainly_list_rules : ends_plainly list_rules.
Proof.
  intros w. unfold list_rules, registry_all, bind, query.
  rewrite list_rules_loop_run. intros n Hn. discriminate Hn.
Qed.

Lemma ends_plainly_show_rule name : ends_plainly (show_rule name).
Proof.
  intros w. rewrite show_rule_run.
  destruct (registry w !! name); intros n Hn; discriminate Hn.
Qed.

Lemma ends_plainly_lint_phase base paths : ends_plainly (lint_phase base paths).
Proof.
  intros w. rewrite lint_phase_run.
  pose proof (collect_files_loop_all_exist paths [] w) as _.
  destruct (collect_files paths w) as [[[files | x | e] w1] tc] eqn:Hc.
  - destruct (lint_loop base files [] w) as [[[issues | x | e] w2] tl] eqn:Hl.
    + cbv zeta.
      destruct (report (cfg_reporter (cfg_read w2 base)) issues w2) as [e | [[] w3]];
        [intros n Hn; discriminate Hn |].
      destruct issues; intros n Hn; inversion Hn; reflexivity.
    + exfalso. clear Hc.
      assert (Hno : forall fs acc w0 y w' t,
                lint_loop base fs acc w0 <> (SystemExit y, w', t)).
      { clear. induction fs as [| f fs IH]; intros acc w0 y w' t; simpl.
        - discriminate.
        - unfold bind. rewrite lint_file_run.
          destruct (apply_file_config base f w0) as [e | [fc w1]]; [discriminate |].
          destruct (check_file fc f w1) as [e | [found w2]]; [discriminate |].
          specialize (IH (acc ++ found) w2 y).
          destruct (lint_loop base fs (acc ++ found) w2) as [[[r | y' | e] w3] t3];
            try discriminate.
          intros Heq. inversion Heq; subst. eapply IH. reflexivity. }
      exact (Hno _ _ _ _ _ _ Hl).
    + intros n Hn. discriminate Hn.
  - unfold collect_files in Hc.
    assert (Hmsg : forall ps fs w0 n w' t,
              collect_files_loop ps fs w0 <> (SystemExit (ExitCode n), w', t)).
    { clear. induction ps as [| q ps IH]; intros fs w0 n w' t; simpl.
      - discriminate.
      - unfold bind, peek, query, sys_exit; simpl.
        destruct (path_exists w0 (expanduser w0 q)); simpl; [| discriminate].
        destruct (path_isdir w0 (expanduser w0 q)); simpl.
        + specialize (IH (fs ++ iglob w0 (path_join (expanduser w0 q) "**/*.sql") true)
                         w0 n).
          destruct (collect_files_loop ps _ w0) as [[[r | y | e] w3] t3];
            try discriminate.
          intros Heq. inversion Heq; subst. eapply IH. reflexivity.
        + specialize (IH (fs ++ [expanduser w0 q]) w0 n).
          destruct (collect_files_loop ps _ w0) as [[[r | y | e] w3] t3];
            try discriminate.
          intros Heq. inversion Heq; subst. eapply IH. reflexivity. }
    intros n Hn. unfold outcome_of in Hn; simpl in Hn. inversion Hn; subst.
    exfalso. exact (Hmsg _ _ _ _ _ _ Hc).
  - intros n Hn. discriminate Hn.
Qed.

(** X12.  Whatever the arguments and the world, the process ends with
    status 0 or 1. *)
Theorem exit_status_is_0_or_1 args w :
  exit_status (outcome_of (main args w)) = 0 \/
  exit_status (outcome_of (main args w)) = 1.
Proof.
  apply exits_plainly_status.
  rewrite main_run. cbv zeta.
  destruct (arg_list_presets args).
  { apply (ends_plainly_list_presets_loop PRESETS (verbose_world args w)). }
  destruct (if truthy (arg_config args)
            then inr (arg_config args, verbose_world args w)
            else discover_config_location (verbose_world args w))
    as [e | [config_file w2]]; [intros n Hn; discriminate Hn |].
  destruct (truthy config_file && negb (path_exists w2 (str_of config_file)));
    [intros n Hn; discriminate Hn |].
  destruct (load_config config_file (arg_preset args) w2) as [e | [base w3]];
    [intros n Hn; discriminate Hn |].
  destruct (load_rules (cfg_plugins (cfg_read w3 base)) w3) as [e | [[] w4]];
    [intros n Hn; discriminate Hn |].
  unfold command.
  destruct (arg_list_rules args); [apply (ends_plainly_list_rules w4) |].
  destruct (truthy (arg_show_rule args)); [apply (ends_plainly_show_rule _ w4) |].
  apply (ends_plainly_lint_phase base (arg_PATHS args) w4).
Qed.

End Further2.

Section Further3.
Context {E : Env}.

(** ** The loop over the files, once more *)

Lemma lint_loop_app base a b issues w :
  lint_loop base (a ++ b) issues w =
  bind (lint_loop base a issues) (fun found => lint_loop base b found) w.
Proof.
  revert issues w. induction a as [| f a IH]; intros issues w.
  - simpl. rewrite bind_ret_l. reflexivity.
  - simpl. rewrite bind_assoc. apply bind_ext. intros found w'. apply IH.
Qed.

Lemma lint_loop_accumulates base files issues w :
  lint_loop base files issues w =
  match lint_loop base files [] w with
  | (Returned found, w', t) => (Returned (issues ++ found), w', t)
  | r => r
  end.
Proof.
  revert issues w. induction files as [| f files IH]; intros issues w.
  - simpl. unfold ret. rewrite app_nil_r. reflexivity.
  - simpl. unfold bind.
    destruct (lint_file base f w) as [[[found | x | e] w1] t1]; try reflexivity.
    rewrite (IH (issues ++ found) w1), (IH found w1).
    destruct (lint_loop base files [] w1) as [[[r | x | e] w2] t2]; try reflexivity.
    simpl. rewrite app_assoc. reflexivity.
Qed.

(** X13.  Linting the files [a ++ b] is linting [a], then [b] from the
    world that leaves, and the issues found so far are only ever
    extended: the loop started with [issues] returns [issues] followed
    by what it returns when started empty. *)
Theorem lint_loop_composes base a b issues w :
  lint_loop base (a ++ b) issues w =
    bind (lint_loop base a issues) (fun found => lint_loop base b found) w /\
  lint_loop base a issues w =
    match lint_loop base a [] w with
    | (Returned found, w', t) => (Returned (issues ++ found), w', t)
    | r => r
    end.
Proof.
  split; [apply lint_loop_app | apply lint_loop_accumulates].
Qed.

Lemma collect_not_report e : is_collect_event e = true -> is_report_event e = false.
Proof. destruct e; intros H; try discriminate H; reflexivity. Qed.

Lemma lint_not_report e : is_lint_event e = true -> is_report_event e = false.
Proof. destruct e; intros H; try discriminate H; reflexivity. Qed.

Lemma lint_file_returned base f w found w1 t :
  lint_file base f w = (Returned found, w1, t) ->
  applied_files t = [f] /\ checked_files t = [f] /\
  Forall (fun e => is_lint_event e = true) t.
Proof.
  intros Hf. pose proof (emits_lint_file base f w) as Hl. rewrite Hf in Hl.
  split; [| split; [| exact Hl]]; rewrite lint_file_run in Hf;
    destruct (apply_file_config base f w) as [e | [fc w3]]; try discriminate;
    destruct (check_file fc f w3) as [e | [found' w4]]; try discriminate;
    inversion Hf; reflexivity.
Qed.

Lemma lint_each_trace base files w founds w' :
  lint_each base files w founds w' ->
  exists t,
    lint_loop base files [] w = (Returned (concat founds), w', t) /\
    applied_files t = files /\ checked_files t = files /\
    Forall (fun e => is_lint_event e = true) t.
Proof.
  induction 1 as [w | f rest w found w1 t founds w2 Hf Heach IH].
  - exists []. repeat split; constructor.
  - destruct IH as (t2 & Hrest & Ha & Hc & Hl).
    destruct (lint_file_returned _ _ _ _ _ _ Hf) as (Ha1 & Hc1 & Hl1).
    exists (t ++ t2). simpl lint_loop. unfold bind. rewrite Hf.
    rewrite (lint_loop_accumulates base rest found w1), Hrest.
    split; [reflexivity |].
    unfold applied_files, checked_files in *.
    rewrite !flat_map_app, Ha, Hc, Ha1, Hc1.
    split; [reflexivity |]. split; [reflexivity |].
    apply Forall_app. split; assumption.
Qed.

(** X14.  The loop stops at the first file whose linting raises: the
    exception ends the run of the lint phase with status 1, the files
    after it are not linted, the reporter is not called, and the issues
    found in the files before it are not reported. *)
Theorem lint_loop_stops_at_first_exception base paths ok f rest w tc founds w1 e w2 t :
  collect_files paths w = (Returned (ok ++ f :: rest), w, tc) ->
  lint_each base ok w founds w1 ->
  lint_file base f w1 = (Uncaught e, w2, t) ->
  exists tl,
    lint_phase base paths w = (Uncaught e, w2, tc ++ tl) /\
    exit_status (outcome_of (lint_phase base paths w)) = 1 /\
    applied_files tl = ok ++ [f] /\
    Forall (fun x => is_report_event x = false) (tc ++ tl).
Proof.
  intros Hcollect Heach Hf.
  destruct (lint_each_trace _ _ _ _ _ Heach) as (t1 & Hok & Ha & _ & Hl).
  assert (Hloop : lint_loop base (ok ++ f :: rest) [] w = (Uncaught e, w2, t1 ++ t)).
  { rewrite lint_loop_app. unfold bind at 1. rewrite Hok.
    simpl lint_loop. unfold bind. rewrite Hf. reflexivity. }
  assert (Hrun : lint_phase base paths w = (Uncaught e, w2, tc ++ t1 ++ t)).
  { rewrite lint_phase_run, Hcollect, Hloop. reflexivity. }
  exists (t1 ++ t). split; [exact Hrun |]. split; [rewrite Hrun; reflexivity |].
  pose proof (emits_lint_file base f w1) as Hfl. rewrite Hf in Hfl.
  unfold trace_of in Hfl; simpl in Hfl.
  split.
  - unfold applied_files in *. rewrite flat_map_app, Ha. f_equal.
    rewrite lint_file_run in Hf.
    destruct (apply_file_config base f w1) as [e' | [fc w3]].
    + inversion Hf; subst. reflexivity.
    + destruct (check_file fc f w3) as [e' | [found' w4]]; inversion Hf; subst.
      reflexivity.
  - pose proof (emits_collect_files_loop paths [] w) as Hc.
    unfold collect_files in Hcollect. rewrite Hcollect in Hc.
    unfold trace_of in Hc; simpl in Hc.
    apply Forall_app. split.
    + apply (List.Forall_impl _ collect_not_report Hc).
    + apply Forall_app. split.
      * apply (List.Forall_impl _ lint_not_report Hl).
      * apply (List.Forall_impl _ lint_not_report Hfl).
Qed.

Lemma not_lint_no_files t :
  Forall (fun e => is_lint_event e = false) t ->
  applied_files t = [] /\ checked_files t = [].
Proof.
  induction 1 as [| e t He Ht [IHa IHc]]; [split; reflexivity |].
  unfold applied_files, checked_files in *. simpl. rewrite IHa, IHc.
  destruct e; try discriminate He; split; reflexivity.
Qed.

Lemma lint_loop_files base files issues w :
  exists rest late,
    files = applied_files (trace_of (lint_loop base files issues w)) ++ rest /\
    applied_files (trace_of (lint_loop base files issues w))
      = checked_files (trace_of (lint_loop base files issues w)) ++ late /\
    (length late <= 1)%nat /\
    (forall found, outcome_of (lint_loop base files issues w) = Returned found ->
                   rest = [] /\ late = []).
Proof.
  revert issues w. induction files as [| f files IH]; intros issues w.
  - exists [], []. simpl. repeat split; auto.
  - simpl. unfold bind. rewrite lint_file_run.
    destruct (apply_file_config base f w) as [e | [fc w1]].
    { exists files, [f]. unfold trace_of, outcome_of; simpl.
      repeat split; auto; discriminate. }
    destruct (check_file fc f w1) as [e | [found w2]].
    { exists files, []. unfold trace_of, outcome_of; simpl.
      repeat split; auto; discriminate. }
    destruct (IH (issues ++ found) w2) as (rest & late & Hfiles & Happ & Hlate & Hret).
    destruct (lint_loop base files (issues ++ found) w2) as [[o w3] t3].
    unfold trace_of, outcome_of in *; simpl in *.
    exists rest, late. unfold applied_files, checked_files in *. simpl.
    split; [f_equal; exact Hfiles |]. split; [f_equal; exact Happ |].
    split; [exact Hlate | exact Hret].
Qed.

(** X15.  Only collected files are linted, in the order they were
    collected.  Either the run hands no file to
    [config.apply_file_config] and none to [lint.check_file]; or it goes
    through the lint phase, in the world [w4] that [rule.load_rules]
    left, [collect_files] returns there, the files handed to
    [config.apply_file_config] are the first files of the list it
    returned, and the files handed to [lint.check_file] are those files
    again, but for the last one at most (when its derivation raised). *)
Theorem linted_files_are_the_collected_ones args w :
  (applied_files (trace_of (main args w)) = [] /\
   checked_files (trace_of (main args w)) = []) \/
  exists cf w2 base w3 w4 files rest late,
    reaches_lint_phase args w cf w2 base w3 w4 /\
    outcome_of (collect_files (arg_PATHS args) w4) = Returned files /\
    files = applied_files (trace_of (main args w)) ++ rest /\
    applied_files (trace_of (main args w))
      = checked_files (trace_of (main args w)) ++ late /\
    (length late <= 1)%nat.
Proof.
  destruct (main_lint_run args w)
    as [Hno | (cf & w2 & base & w3 & w4 & Hreach)].
  { left. apply not_lint_no_files.
    apply (List.Forall_impl _ (fun e (He : _ /\ _) => proj1 He) Hno). }
  pose proof Hreach as (_ & _ & _ & Hmain).
  pose proof (Forall_app_2 _ _ _ (verbose_events_setup args) (config_events_setup args cf))
    as Hs.
  destruct (lint_phase_trace base (arg_PATHS args) w4)
    as (tc & tl & tr & Htp & Hc & Hr & Htl).
  assert (Ht : trace_of (main args w) =
               ((verbose_events args ++ config_events args cf)
                  ++ [EvLoadConfig cf (arg_preset args);
                      EvLoadRules (cfg_plugins (cfg_read w3 base))] ++ tc)
               ++ tl ++ tr).
  { rewrite Hmain. unfold trace_of at 1; simpl. rewrite Htp.
    rewrite <- !app_assoc. reflexivity. }
  assert (Hpre : Forall (fun e => is_lint_event e = false)
                   ((verbose_events args ++ config_events args cf)
                      ++ [EvLoadConfig cf (arg_preset args);
                          EvLoadRules (cfg_plugins (cfg_read w3 base))] ++ tc)).
  { apply Forall_app. split; [apply (List.Forall_impl _ setup_not_lint Hs) |].
    apply Forall_app. split; [repeat constructor |].
    apply (List.Forall_impl _ collect_not_lint Hc). }
  destruct (not_lint_no_files _ Hpre) as [Hpa Hpc].
  destruct (not_lint_no_files _ (List.Forall_impl _ report_not_lint Hr)) as [Hra Hrc].
  assert (Ha : applied_files (trace_of (main args w)) = applied_files tl).
  { rewrite Ht. unfold applied_files in *.
    rewrite flat_map_app, Hpa, flat_map_app, Hra, app_nil_r. reflexivity. }
  assert (Hck : checked_files (trace_of (main args w)) = checked_files tl).
  { rewrite Ht. unfold checked_files in *.
    rewrite flat_map_app, Hpc, flat_map_app, Hrc, app_nil_r. reflexivity. }
  rewrite Ha, Hck.
  destruct Htl as [-> | (files & Hfiles & ->)]; [left; split; reflexivity |].
  right.
  destruct (lint_loop_files base files [] w4) as (rest & late & Hf & Happ & Hlate & _).
  exists cf, w2, base, w3, w4, files, rest, late. repeat split; try assumption.
  all: apply Hreach.
Qed.

(** ** [collect_files], once more *)

Lemma collect_files_loop_accumulates paths files w :
  collect_files_loop paths files w =
  match collect_files_loop paths [] w with
  | (Returned found, w', t) => (Returned (files ++ found), w', t)
  | r => r
  end.
Proof.
  revert files. induction paths as [| p paths IH]; intros files.
  - simpl. unfold ret. rewrite app_nil_r. reflexivity.
  - simpl. unfold bind, peek, query, sys_exit; simpl.
    destruct (path_exists w (expanduser w p)); simpl; [| reflexivity].
    destruct (path_isdir w (expanduser w p)); simpl.
    + rewrite (IH (files ++ _)), (IH (iglob _ _ _)).
      destruct (collect_files_loop paths [] w) as [[[r | x | e] w2] t2]; try reflexivity.
      rewrite app_assoc. reflexivity.
    + rewrite (IH (files ++ _)), (IH [expanduser w p]).
      destruct (collect_files_loop paths [] w) as [[[r | x | e] w2] t2]; try reflexivity.
      rewrite app_assoc. reflexivity.
Qed.

Lemma collect_files_loop_app a b files w :
  collect_files_loop (a ++ b) files w =
  bind (collect_files_loop a files) (fun found => collect_files_loop b found) w.
Proof.
  revert files. induction a as [| p a IH]; intros files.
  - simpl. rewrite bind_ret_l. reflexivity.
  - change ((p :: a) ++ b) with (p :: (a ++ b)).
    destruct (path_exists w (expanduser w p)) eqn:Hp.
    + rewrite (collect_files_loop_step p (a ++ b) files w Hp).
      unfold bind. rewrite (collect_files_loop_step p a files w Hp).
      rewrite IH. unfold bind.
      pose proof (collect_files_loop_world a (files ++ collected_for w p) w) as Hw.
      destruct (collect_files_loop a (files ++ collected_for w p) w)
        as [[[r | x | e] w2] t2]; unfold world_of in Hw; simpl in Hw; subst w2;
        try reflexivity.
      unfold outcome_of, trace_of; simpl.
      pose proof (collect_files_loop_world b r w) as Hw.
      destruct (collect_files_loop b r w) as [[o w3] t3].
      unfold world_of in Hw; simpl in Hw; subst w3.
      rewrite <- ?app_assoc. reflexivity.
    + rewrite (collect_files_loop_missing p (a ++ b) files w Hp).
      symmetry. apply bind_exit. apply collect_files_loop_missing. exact Hp.
Qed.

(** X16.  Collecting the paths [a ++ b] is collecting [a], then [b],
    and putting the two lists one after the other; when [a] holds a
    path that does not exist, [b] is not looked at. *)
Theorem collect_files_composes a b w :
  collect_files (a ++ b) w =
  bind (collect_files a)
       (fun first => bind (collect_files b) (fun second => ret (first ++ second))) w.
Proof.
  unfold collect_files. rewrite collect_files_loop_app. apply bind_ext.
  intros first w'. rewrite collect_files_loop_accumulates.
  unfold bind, ret.
  destruct (collect_files_loop b [] w') as [[[r | x | e] w2] t2]; try reflexivity.
  rewrite app_nil_r. reflexivity.
Qed.

(** ** When loading fails *)

(** X17.  An exception of [config.load_config] (an unknown preset, a
    configuration that cannot be read) or of [rule.load_rules] ends the
    run at that call, with status 1: after a failed [load_config] no
    rule is loaded, and after either no file is collected or linted. *)
Theorem load_failures_end_the_run args w cf w2 :
  arg_list_presets args = false ->
  (if truthy (arg_config args)
   then inr (arg_config args, verbose_world args w)
   else discover_config_location (verbose_world args w)) = inr (cf, w2) ->
  truthy cf && negb (path_exists w2 (str_of cf)) = false ->
  (forall e,
     load_config cf (arg_preset args) w2 = inl e ->
     main args w =
       (Uncaught e, w2,
        (verbose_events args ++ config_events args cf)
        ++ [EvLoadConfig cf (arg_preset args)]) /\
     exit_status (outcome_of (main args w)) = 1) /\
  (forall base w3 e,
     load_config cf (arg_preset args) w2 = inr (base, w3) ->
     load_rules (cfg_plugins (cfg_read w3 base)) w3 = inl e ->
     main args w =
       (Uncaught e, w3,
        (verbose_events args ++ config_events args cf)
        ++ [EvLoadConfig cf (arg_preset args);
            EvLoadRules (cfg_plugins (cfg_read w3 base))]) /\
     exit_status (outcome_of (main args w)) = 1).
Proof.
  intros Hlp Hcf Hok. split.
  - intros e Hload.
    assert (Hrun : main args w =
       (Uncaught e, w2,
        (verbose_events args ++ config_events args cf)
        ++ [EvLoadConfig cf (arg_preset args)])).
    { rewrite main_run. cbv zeta. rewrite Hlp, Hcf, Hok, Hload. reflexivity. }
    split; [exact Hrun | rewrite Hrun; reflexivity].
  - intros base w3 e Hload Hrules.
    assert (Hrun : main args w =
       (Uncaught e, w3,
        (verbose_events args ++ config_events args cf)
        ++ [EvLoadConfig cf (arg_preset args);
            EvLoadRules (cfg_plugins (cfg_read w3 base))])).
    { rewrite main_run. cbv zeta. rewrite Hlp, Hcf, Hok, Hload, Hrules. reflexivity. }
    split; [exact Hrun | rewrite Hrun; reflexivity].
Qed.

End Further3.

(** * The claims on the concrete environment *)

#[local] Existing Instance Demo.env.



Lemma demo_presets_have_config : presets_have_config (E := Demo.env).
Proof. repeat constructor; discriminate. Qed.

Lemma demo_apply_file_config_keeps_registry :
  apply_file_config_keeps_registry (E := Demo.env).
Proof.
  intros base file_name w file_config w' Happly. simpl in *.
  unfold Demo.apply_file in Happly.
  destruct (nth_error (Demo.heap w) base) as [v |]; [| discriminate].
  inversion Happly; subst. reflexivity.
Qed.

Lemma demo_check_file_keeps_registry : check_file_keeps_registry (E := Demo.env).
Proof.
  intros file_config file_name w found w' Hcheck. simpl in *.
  unfold Demo.check in Hcheck. inversion Hcheck; subst. reflexivity.
Qed.

Lemma demo_report_keeps_registry : report_keeps_registry (E := Demo.env).
Proof.
  intros rep issues w u w' Hrep. simpl in *.
  unfold Demo.report_issues in Hrep. inversion Hrep; subst. reflexivity.
Qed.



(** C1 as stated fails: with a reporter that raises, [squabble
    clean.sql] goes through the setup and lints [clean.sql], the
    aggregate issue list handed to the reporter is empty, and the run
    ends with the exception of the reporter, that is with status 1. *)
Lemma failing_reporter_exits_1_without_issues :
  trace_of (main (E := BrokenReporter.env) (Demo.args_of ["clean.sql"]) Demo.w0) =
    [EvDiscoverConfig; EvLoadConfig None None; @EvLoadRules BrokenReporter.env [];
     @EvCollectPath BrokenReporter.env "clean.sql";
     @EvApplyFileConfig BrokenReporter.env 0%nat Demo.default_config "clean.sql";
     @EvCheckFile BrokenReporter.env 1%nat "clean.sql";
     @EvReport BrokenReporter.env "plain" []] /\
  outcome_of (main (E := BrokenReporter.env) (Demo.args_of ["clean.sql"]) Demo.w0)
    = Uncaught (OtherException "unknown reporter") /\
  exit_status (outcome_of (main (E := BrokenReporter.env)
                 (Demo.args_of ["clean.sql"]) Demo.w0)) = 1 /\
  exit_status (outcome_of (main (E := BrokenReporter.env)
                 (Demo.args_of ["clean.sql"]) Demo.w0)) <> 0.
Proof.
  split; [vm_compute; reflexivity |]. split; [vm_compute; reflexivity |].
  split; [vm_compute; reflexivity |]. vm_compute. discriminate.
Qed.

(** C1 as amended, on two runs with a reporter that returns: [squabble
    clean.sql] finds nothing and ends with status 0; [squabble ~/a.sql
    db clean.sql] finds two issues and ends with status 1. *)
Lemma exit_status_reflects_issues_witness :
  (In (@EvReport Demo.env "plain" [])
      (trace_of (main (E := Demo.env) (Demo.args_of ["clean.sql"]) Demo.w0)) /\
   exit_status (outcome_of (main (E := Demo.env) (Demo.args_of ["clean.sql"]) Demo.w0)) = 0) /\
  (In (@EvReport Demo.env "plain" [Demo.select_star; Demo.no_pk])
      (trace_of (main (E := Demo.env)
                   (Demo.args_of ["~/a.sql"; "db"; "clean.sql"]) Demo.w0)) /\
   exit_status (outcome_of (main (E := Demo.env)
                  (Demo.args_of ["~/a.sql"; "db"; "clean.sql"]) Demo.w0)) = 1).
Proof.
  split.
  - assert (Hin : In (@EvReport Demo.env "plain" [])
        (trace_of (main (E := Demo.env) (Demo.args_of ["clean.sql"]) Demo.w0))).
    { vm_compute. repeat (first [left; reflexivity | right]). }
    split; [exact Hin |].
    destruct (exit_status_reflects_issues (E := Demo.env) _ _ "plain" [] Hin)
      as (cf & w2 & base & w3 & w4 & files & w5 & t & _ & _ & _ & _ & Hstatus & _).
    exact Hstatus.
  - assert (Hin : In (@EvReport Demo.env "plain" [Demo.select_star; Demo.no_pk])
        (trace_of (main (E := Demo.env)
                     (Demo.args_of ["~/a.sql"; "db"; "clean.sql"]) Demo.w0))).
    { vm_compute. repeat (first [left; reflexivity | right]). }
    split; [exact Hin |].
    destruct (exit_status_reflects_issues (E := Demo.env) _ _ "plain"
                [Demo.select_star; Demo.no_pk] Hin)
      as (cf & w2 & base & w3 & w4 & files & w5 & t & _ & _ & _ & _ & Hstatus & _).
    exact Hstatus.
Defined.

(** C2 on two files: the loop returns the issue of [/home/u/a.sql]
    followed by the (empty) issues of [clean.sql]. *)
Lemma lint_loop_concatenates_witness :
  exists founds,
    lint_each (E := Demo.env) 0%nat ["/home/u/a.sql"; "clean.sql"] Demo.w1 founds
      (world_of (lint_loop (E := Demo.env) 0%nat ["/home/u/a.sql"; "clean.sql"] [] Demo.w1)) /\
    length founds = 2%nat /\
    [Demo.select_star] = concat founds.
Proof.
  apply (proj1 (lint_loop_concatenates (E := Demo.env) 0%nat
                  ["/home/u/a.sql"; "clean.sql"] Demo.w1 [Demo.select_star] _)).
  exists (trace_of (lint_loop (E := Demo.env) 0%nat ["/home/u/a.sql"; "clean.sql"] [] Demo.w1)).
  vm_compute. reflexivity.
Defined.

(** C3 as stated fails: with [--list-presets], a [--config] that names
    a file that does not exist is never looked at, and the run ends
    with status 0. *)
Lemma list_presets_ignores_missing_config :
  arg_list_presets Demo.args_list_presets = true /\
  arg_config Demo.args_list_presets = Some "nowhere.json" /\
  path_exists (Env := Demo.env) Demo.w0 "nowhere.json" = false /\
  outcome_of (main (E := Demo.env) Demo.args_list_presets Demo.w0) = Returned tt /\
  exit_status (outcome_of (main (E := Demo.env) Demo.args_list_presets Demo.w0)) = 0.
Proof. repeat split; vm_compute; reflexivity. Qed.

(** C3 as amended, on [squabble --config nowhere.json clean.sql] and on
    [squabble clean.sql] with no configuration file to discover. *)
Lemma missing_config_exits_witness :
  (main (E := Demo.env) Demo.args_missing_config Demo.w0 =
     (SystemExit (ExitMsg "nowhere.json: no such file or directory"), Demo.w0,
      [@EvConfigExists Demo.env "nowhere.json"]) /\
   exit_status (outcome_of (main (E := Demo.env) Demo.args_missing_config Demo.w0)) = 1) /\
  (exists rest,
     trace_of (main (E := Demo.env) (Demo.args_of ["clean.sql"]) Demo.w0) =
       [] ++ [EvDiscoverConfig; EvLoadConfig None None] ++ rest).
Proof.
  split.
  - apply (proj1 (missing_config_exits (E := Demo.env)
                    Demo.args_missing_config Demo.w0 eq_refl)); reflexivity.
  - apply (proj2 (missing_config_exits (E := Demo.env)
                    (Demo.args_of ["clean.sql"]) Demo.w0 eq_refl) eq_refl None Demo.w0);
      reflexivity.
Defined.

(** C4 as stated fails: in [squabble clean.sql] the configuration is
    loaded before the rules are, and no loading of the rules comes
    before the loading of the configuration. *)
Lemma config_loaded_before_rules :
  firstn 3 (trace_of (main (E := Demo.env) (Demo.args_of ["clean.sql"]) Demo.w0)) =
    [EvDiscoverConfig; EvLoadConfig None None; @EvLoadRules Demo.env []] /\
  happens_before is_load_rules is_load_config
    (trace_of (main (E := Demo.env) (Demo.args_of ["clean.sql"]) Demo.w0)) = false /\
  happens_before is_load_config is_load_rules
    (trace_of (main (E := Demo.env) (Demo.args_of ["clean.sql"]) Demo.w0)) = true.
Proof. repeat split; vm_compute; reflexivity. Qed.

(** C4 as amended, at the first path looked at in [squabble clean.sql]. *)
Lemma rules_loaded_after_config_witness :
  exists s cf w2 base w3 k,
    load_config (Env := Demo.env) cf None w2 = inr (base, w3) /\
    Forall (fun x => is_setup_event x = true) s /\
    Forall (fun x => is_work_event x = true) k /\
    [EvDiscoverConfig; EvLoadConfig None None; @EvLoadRules Demo.env []] ++ [@EvCollectPath Demo.env "clean.sql"] =
      s ++ [EvLoadConfig cf None; EvLoadRules (cfg_plugins (cfg_read w3 base))] ++ k.
Proof.
  apply (rules_loaded_after_config (E := Demo.env) (Demo.args_of ["clean.sql"]) Demo.w0
           [EvDiscoverConfig; EvLoadConfig None None; @EvLoadRules Demo.env []]
           (@EvCollectPath Demo.env "clean.sql")
           [@EvApplyFileConfig Demo.env 0%nat Demo.default_config "clean.sql";
            @EvCheckFile Demo.env 1%nat "clean.sql"; @EvReport Demo.env "plain" []]).
  - vm_compute. reflexivity.
  - right. reflexivity.
Defined.

(** C5 at the linting of [clean.sql] in [squabble clean.sql]: the
    collaborators of the concrete environment leave the registry alone,
    and the run ends with the registry [load_rules] left. *)
Lemma rules_loaded_once_before_linting_witness :
  count_events (E := Demo.env) is_load_rules
    [EvDiscoverConfig; EvLoadConfig None None; @EvLoadRules Demo.env []; @EvCollectPath Demo.env "clean.sql"]
    = 1%nat /\
  count_events (E := Demo.env) is_load_rules
    [@EvApplyFileConfig Demo.env 0%nat Demo.default_config "clean.sql";
     @EvCheckFile Demo.env 1%nat "clean.sql"; @EvReport Demo.env "plain" []] = 0%nat /\
  count_events is_load_rules
    (trace_of (main (E := Demo.env) (Demo.args_of ["clean.sql"]) Demo.w0)) = 1%nat /\
  exists cf w2 base w3 w4,
    reaches_lint_phase (E := Demo.env) (Demo.args_of ["clean.sql"]) Demo.w0 cf w2 base w3 w4 /\
    registry (world_of (main (E := Demo.env) (Demo.args_of ["clean.sql"]) Demo.w0))
      = registry w4.
Proof.
  destruct (proj2 (rules_loaded_once_before_linting (E := Demo.env)
                     (Demo.args_of ["clean.sql"]) Demo.w0)
              [EvDiscoverConfig; EvLoadConfig None None; @EvLoadRules Demo.env [];
               @EvCollectPath Demo.env "clean.sql"]
              (@EvApplyFileConfig Demo.env 0%nat Demo.default_config "clean.sql")
              [@EvCheckFile Demo.env 1%nat "clean.sql"; @EvReport Demo.env "plain" []]
              eq_refl eq_refl)
    as (Hpre & Hpost & Hall & cf & w2 & base & w3 & w4 & Hreach & Hframe).
  split; [exact Hpre |]. split; [exact Hpost |]. split; [exact Hall |].
  exists cf, w2, base, w3, w4. split; [exact Hreach |].
  exact (proj2 (Hframe demo_apply_file_config_keeps_registry
                  demo_check_file_keeps_registry)
           demo_report_keeps_registry).
Defined.

(** C6 on [clean.sql gone.sql db]: the run stops at [gone.sql]. *)
Lemma collect_files_missing_path_exits_witness :
  exists ok p rest,
    ["clean.sql"; "gone.sql"; "db"] = ok ++ p :: rest /\
    Forall (fun q => path_exists (Env := Demo.env) Demo.w1 (expanduser Demo.w1 q) = true) ok /\
    path_exists (Env := Demo.env) Demo.w1 (expanduser Demo.w1 p) = false /\
    collect_files (E := Demo.env) ["clean.sql"; "gone.sql"; "db"] Demo.w1 =
      (SystemExit (ExitMsg (expanduser Demo.w1 p +:+ ": no such file or directory")), Demo.w1,
       flat_map (collect_events Demo.w1) ok ++ [@EvCollectPath Demo.env (expanduser Demo.w1 p)]) /\
    exit_status (outcome_of (collect_files (E := Demo.env)
                               ["clean.sql"; "gone.sql"; "db"] Demo.w1)) = 1 /\
    Forall (fun e => is_lint_event e = false)
      (trace_of (collect_files (E := Demo.env) ["clean.sql"; "gone.sql"; "db"] Demo.w1)) /\
    forall base,
      lint_phase (E := Demo.env) base ["clean.sql"; "gone.sql"; "db"] Demo.w1 =
        (SystemExit (ExitMsg (expanduser Demo.w1 p +:+ ": no such file or directory")), Demo.w1,
         flat_map (collect_events Demo.w1) ok ++ [@EvCollectPath Demo.env (expanduser Demo.w1 p)]).
Proof.
  apply (collect_files_missing_path_exits (E := Demo.env)
           ["clean.sql"; "gone.sql"; "db"] Demo.w1).
  apply Exists_cons_tl. apply Exists_cons_hd. reflexivity.
Defined.




(** C9 on [NoSuchRule], with the built-in rules loaded. *)
Lemma show_rule_unknown_exits_witness :
  registry (Env := Demo.env) Demo.w1 !! "NoSuchRule" = None /\
  show_rule (E := Demo.env) "NoSuchRule" Demo.w1 =
    (SystemExit (ExitMsg (BRIGHT +:+ "Unknown rule:" +:+ RESET_ALL +:+ " " +:+ "NoSuchRule")),
     Demo.w1, [EvGetMeta "NoSuchRule"]) /\
  command (E := Demo.env) Demo.args_show_rule 0%nat Demo.w1 =
    (SystemExit (ExitMsg (BRIGHT +:+ "Unknown rule:" +:+ RESET_ALL +:+ " " +:+ "NoSuchRule")),
     Demo.w1, [EvGetMeta "NoSuchRule"]).
Proof.
  assert (Hnone : registry (Env := Demo.env) Demo.w1 !! "NoSuchRule" = None)
    by (vm_compute; reflexivity).
  split; [exact Hnone |].
  destruct (show_rule_unknown_exits (E := Demo.env) "NoSuchRule" Demo.w1 Hnone)
    as (Hrun & _ & _ & Hcommand).
  split; [exact Hrun |].
  apply (Hcommand Demo.args_show_rule 0%nat eq_refl eq_refl). discriminate.
Defined.

(** C10 on [squabble --list-presets --config nowhere.json gone.sql]:
    neither the configuration file nor the path exists, and the run
    returns with status 0. *)
Lemma list_presets_returns_first_witness :
  path_exists (Env := Demo.env) Demo.w0 "nowhere.json" = false /\
  path_exists (Env := Demo.env) Demo.w0 (expanduser Demo.w0 "gone.sql") = false /\
  main (E := Demo.env) Demo.args_list_presets Demo.w0 =
    (Returned tt, Demo.w0,
     [] ++ map EvPrint (flat_map preset_lines (PRESETS (Env := Demo.env)))) /\
  exit_status (outcome_of (main (E := Demo.env) Demo.args_list_presets Demo.w0)) = 0.
Proof.
  split; [reflexivity |]. split; [reflexivity |].
  apply (list_presets_returns_first (E := Demo.env) Demo.args_list_presets Demo.w0 eq_refl).
  exact demo_presets_have_config.
Defined.

(** * The further properties on the concrete environments *)

(** X3 on [squabble --show-rule NoSuchRule]. *)
Lemma introspection_ignores_paths_witness :
  Forall (fun e => is_file_event e = false /\ is_report_event e = false)
         (trace_of (main (E := Demo.env) Demo.args_show_rule Demo.w0)).
Proof.
  apply (introspection_ignores_paths (E := Demo.env) Demo.args_show_rule Demo.w0).
  right. right. reflexivity.
Defined.

(** X4 on [squabble --list-rules --show-rule NoSuchRule]. *)
Lemma list_rules_wins_over_show_rule_witness :
  Forall (fun e => is_get_meta e = false)
         (trace_of (main (E := Demo.env)
                      {| arg_verbose := false; arg_PATHS := []; arg_preset := None;
                         arg_list_presets := false; arg_config := None;
                         arg_list_rules := true;
                         arg_show_rule := Some "NoSuchRule" |} Demo.w0)).
Proof.
  apply (list_rules_wins_over_show_rule (E := Demo.env)
           {| arg_verbose := false; arg_PATHS := []; arg_preset := None;
              arg_list_presets := false; arg_config := None;
              arg_list_rules := true;
              arg_show_rule := Some "NoSuchRule" |} Demo.w0 eq_refl).
Defined.

(** X5 on [squabble --config nowhere.json clean.sql] and on
    [squabble clean.sql]. *)
Lemma discovery_is_a_fallback_witness :
  count_events is_discover
    (trace_of (main (E := Demo.env) Demo.args_missing_config Demo.w0)) = 0%nat /\
  count_events is_discover
    (trace_of (main (E := Demo.env) (Demo.args_of ["clean.sql"]) Demo.w0)) = 1%nat.
Proof.
  split.
  - apply (proj1 (discovery_is_a_fallback (E := Demo.env)
                    Demo.args_missing_config Demo.w0)). reflexivity.
  - apply (proj2 (discovery_is_a_fallback (E := Demo.env)
                    (Demo.args_of ["clean.sql"]) Demo.w0)); reflexivity.
Defined.

(** X6 on the built-in rule [RequirePrimaryKey]. *)
Lemma show_rule_prints_registered_rule_witness :
  show_rule (E := Demo.env) "RequirePrimaryKey" Demo.w1 =
    (Returned tt, Demo.w1,
     [@EvGetMeta Demo.env "RequirePrimaryKey";
      @EvPrint Demo.env
        (rule_text {| meta_name := "RequirePrimaryKey";
                      meta_description := "Require a primary key on every table";
                      meta_help := "Tables without a primary key are hard to replicate." |})]).
Proof.
  apply (show_rule_prints_registered_rule (E := Demo.env) "RequirePrimaryKey"
           {| meta_name := "RequirePrimaryKey";
              meta_description := "Require a primary key on every table";
              meta_help := "Tables without a primary key are hard to replicate." |}
           Demo.w1).
  vm_compute. reflexivity.
Defined.

(** X7 on a table whose second preset, [draft], has no [config]. *)
Lemma list_presets_stops_at_missing_config_witness :
  exit_status (outcome_of (list_presets (E := Faulty.env) Demo.w0)) = 1 /\
  outcome_of (list_presets (E := Faulty.env) Demo.w0) = Uncaught (KeyError "config").
Proof.
  destruct (list_presets_stops_at_missing_config (E := Faulty.env)
              [("postgres",
                {| preset_description := Some "A sane set of defaults";
                   preset_config := Some ["RequirePrimaryKey"] |})]
              "draft"
              {| preset_description := None; preset_config := None |}
              [("full",
                {| preset_description := None;
                   preset_config := Some ["RequirePrimaryKey"] |})]
              Demo.w0 eq_refl)
    as [Hrun Hstatus].
  - repeat constructor. discriminate.
  - reflexivity.
  - split; [exact Hstatus | rewrite Hrun; reflexivity].
Defined.

(** X10 on [squabble clean.sql] where the discovery names
    [.squabblerc], which is not there. *)
Lemma discovered_config_must_exist_witness :
  outcome_of (main (E := Demo.env) (Demo.args_of ["clean.sql"]) Faulty.w_broken)
    = SystemExit (ExitMsg ".squabblerc: no such file or directory") /\
  exit_status (outcome_of (main (E := Demo.env) (Demo.args_of ["clean.sql"])
                             Faulty.w_broken)) = 1.
Proof.
  destruct (discovered_config_must_exist (E := Demo.env)
              (Demo.args_of ["clean.sql"]) Faulty.w_broken ".squabblerc" Faulty.w_broken
              eq_refl eq_refl eq_refl)
    as [Hrun Hstatus].
  - discriminate.
  - reflexivity.
  - split; [rewrite Hrun; reflexivity | exact Hstatus].
Defined.

(** X14 on [/home/u/a.sql broken.sql clean.sql]: the linter raises on
    [broken.sql]; [clean.sql] is not linted and nothing is reported. *)
Lemma lint_loop_stops_at_first_exception_witness :
  exists tl,
    exit_status (outcome_of (lint_phase (E := Faulty.env) 0%nat
                               ["/home/u/a.sql"; "broken.sql"; "clean.sql"]
                               Faulty.w_broken)) = 1 /\
    applied_files (E := Faulty.env) tl = ["/home/u/a.sql"; "broken.sql"].
Proof.
  edestruct (lint_loop_stops_at_first_exception (E := Faulty.env) 0%nat
               ["/home/u/a.sql"; "broken.sql"; "clean.sql"]
               ["/home/u/a.sql"] "broken.sql" ["clean.sql"] Faulty.w_broken)
    as (tl & _ & Hstatus & Happlied & _).
  - reflexivity.
  - eapply lint_each_cons; [reflexivity | apply lint_each_nil].
  - reflexivity.
  - exists tl. split; [exact Hstatus | exact Happlied].
Defined.

(** X17 on [squabble --preset nosuch clean.sql], where the preset is
    unknown, and on [squabble clean.sql] where the rules cannot be
    loaded. *)
Lemma load_failures_end_the_run_witness :
  outcome_of (main (E := Demo.env)
                {| arg_verbose := false; arg_PATHS := ["clean.sql"];
                   arg_preset := Some "nosuch"; arg_list_presets := false;
                   arg_config := None; arg_list_rules := false;
                   arg_show_rule := None |} Demo.w0)
    = Uncaught (OtherException "unknown preset") /\
  exit_status (outcome_of (main (E := Faulty.env) (Demo.args_of ["clean.sql"]) Demo.w0)) = 1.
Proof.
  split.
  - destruct (proj1 (load_failures_end_the_run (E := Demo.env)
                {| arg_verbose := false; arg_PATHS := ["clean.sql"];
                   arg_preset := Some "nosuch"; arg_list_presets := false;
                   arg_config := None; arg_list_rules := false;
                   arg_show_rule := None |} Demo.w0 None Demo.w0
                eq_refl eq_refl eq_refl)
              (OtherException "unknown preset") eq_refl) as [Hrun _].
    rewrite Hrun. reflexivity.
  - apply (proj2 (load_failures_end_the_run (E := Faulty.env)
                    (Demo.args_of ["clean.sql"]) Demo.w0 None Demo.w0
                    eq_refl eq_refl eq_refl)
             0%nat (Demo.with_heap [Demo.default_config] Demo.w0)
             (OtherException "cannot load the rules")); reflexivity.
Defined.
